(** * SafeStack runtime (compiler-rt/lib/safestack/safestack.cc)

    A shallow embedding of the unsafe-stack lifecycle manager: region
    allocation and release, the per-thread stack state, the process-wide
    initializer, the [pthread_create] interceptor, the thread-start
    trampoline and the re-arming thread-specific-data destructor.

    Data layout is LP64: [size_t], [uptr], [rlim_t] and data or function
    pointers are 64-bit words, modelled as [Z] in [0, 2^64) with the
    wrap-around of unsigned arithmetic written out. *)

From Stdlib Require Import ZArith Lia List Bool.
From stdpp Require Import base option gmap list_numbers.

Local Open Scope Z_scope.

(** ** Machine words *)

Definition word_bits : Z := 64.
Definition word_modulus : Z := 2 ^ word_bits.

(** Unsigned 64-bit wrap-around of [size_t] and pointer arithmetic. *)
Definition wrap (x : Z) : Z := x mod word_modulus.

Definition in_word (x : Z) : Prop := 0 <= x < word_modulus.

(** ** Platform constants

    Macros the source takes from system headers that are not part of the
    repository: [PAGE_SIZE] (sys/user.h), [PTHREAD_DESTRUCTOR_ITERATIONS]
    (limits.h) and [RLIM_INFINITY] (sys/resource.h). *)

Class platform : Type := {
  PAGE_SIZE : Z;
  PTHREAD_DESTRUCTOR_ITERATIONS : Z;
  RLIM_INFINITY : Z
}.

(** What the headers guarantee about them: the page size is a power of two
    no smaller than the stack alignment, POSIX grants at least one
    destructor round, and the constants fit a machine word. *)
Definition platform_ok `{platform} : Prop :=
  PAGE_SIZE = 2 ^ Z.log2 PAGE_SIZE /\
  4 <= Z.log2 PAGE_SIZE < word_bits /\
  1 <= PTHREAD_DESTRUCTOR_ITERATIONS < word_modulus /\
  in_word RLIM_INFINITY.

(** x86-64 Linux with glibc. *)
Definition linux_x86_64 : platform := {|
  PAGE_SIZE := 4096;
  PTHREAD_DESTRUCTOR_ITERATIONS := 4;
  RLIM_INFINITY := 18446744073709551615
|}.

(** Minimum stack alignment for the unsafe stack. *)
Definition kStackAlign : Z := 16.

(** Default size of the unsafe stack. *)
Definition kDefaultUnsafeStackSize : Z := 0x2800000.

(** ** Process state *)

(** The calls made to the page-mapping primitives, newest first. *)
Inductive sys_event : Type :=
| EvMmap (addr len : Z)
| EvProtNone (addr len : Z)
| EvUnmap (addr len : Z).

Inductive perm : Type := ReadWrite | NoAccess | Unmapped.

Global Instance perm_eq_dec : EqDecision perm.
Proof. solve_decision. Defined.

Global Instance sys_event_eq_dec : EqDecision sys_event.
Proof. solve_decision. Defined.

Definition in_range (addr len a : Z) : bool :=
  (addr <=? a) && (a <? addr + len).

(** Protection of the byte at address [a] after the calls in [log]: the
    most recent call whose range contains [a] decides. *)
Fixpoint perm_at (log : list sys_event) (a : Z) : perm :=
  match log with
  | [] => Unmapped
  | EvMmap addr len :: rest =>
      if in_range addr len a then ReadWrite else perm_at rest a
  | EvProtNone addr len :: rest =>
      if in_range addr len a then NoAccess else perm_at rest a
  | EvUnmap addr len :: rest =>
      if in_range addr len a then Unmapped else perm_at rest a
  end.

(** Thread-local variables of the runtime, one copy per thread:
    [__safestack_unsafe_stack_ptr], [unsafe_stack_start],
    [unsafe_stack_size], [unsafe_stack_guard], and the value the thread
    holds for [thread_cleanup_key]. *)
Record thread_locals : Type := {
  __safestack_unsafe_stack_ptr : Z;
  unsafe_stack_start : Z;
  unsafe_stack_size : Z;
  unsafe_stack_guard : Z;
  thread_cleanup_value : Z
}.

(** A thread begins with the initializers of the declarations
    ([nullptr], [0]) and with no value for any key. *)
Definition fresh_thread_locals : thread_locals := {|
  __safestack_unsafe_stack_ptr := 0;
  unsafe_stack_start := 0;
  unsafe_stack_size := 0;
  unsafe_stack_guard := 0;
  thread_cleanup_value := 0
|}.

(** The state a running thread sees: its own thread-locals, and the
    address space it shares with the other threads (the mapping calls made
    so far and the words stored in memory, keyed by their address). *)
Record state : Type := {
  tls : thread_locals;
  vm_log : list sys_event;
  heap : gmap Z Z
}.

Definition set_stack (ptr start size guard : Z) (t : thread_locals)
    : thread_locals :=
  {| __safestack_unsafe_stack_ptr := ptr;
     unsafe_stack_start := start;
     unsafe_stack_size := size;
     unsafe_stack_guard := guard;
     thread_cleanup_value := thread_cleanup_value t |}.

Definition set_unsafe_stack_ptr (v : Z) (t : thread_locals) : thread_locals :=
  {| __safestack_unsafe_stack_ptr := v;
     unsafe_stack_start := unsafe_stack_start t;
     unsafe_stack_size := unsafe_stack_size t;
     unsafe_stack_guard := unsafe_stack_guard t;
     thread_cleanup_value := thread_cleanup_value t |}.

Definition set_unsafe_stack_start (v : Z) (t : thread_locals) : thread_locals :=
  {| __safestack_unsafe_stack_ptr := __safestack_unsafe_stack_ptr t;
     unsafe_stack_start := v;
     unsafe_stack_size := unsafe_stack_size t;
     unsafe_stack_guard := unsafe_stack_guard t;
     thread_cleanup_value := thread_cleanup_value t |}.

Definition set_thread_cleanup_value (v : Z) (t : thread_locals)
    : thread_locals :=
  {| __safestack_unsafe_stack_ptr := __safestack_unsafe_stack_ptr t;
     unsafe_stack_start := unsafe_stack_start t;
     unsafe_stack_size := unsafe_stack_size t;
     unsafe_stack_guard := unsafe_stack_guard t;
     thread_cleanup_value := v |}.

Definition with_tls (f : thread_locals -> thread_locals) (s : state) : state :=
  {| tls := f (tls s); vm_log := vm_log s; heap := heap s |}.

Definition with_event (e : sys_event) (s : state) : state :=
  {| tls := tls s; vm_log := e :: vm_log s; heap := heap s |}.

Definition with_word (a v : Z) (s : state) : state :=
  {| tls := tls s; vm_log := vm_log s; heap := <[a := v]> (heap s) |}.

(** The view of a thread that has just been spawned: fresh thread-locals
    over the same address space. *)
Definition spawned (s : state) : state :=
  {| tls := fresh_thread_locals; vm_log := vm_log s; heap := heap s |}.

(** ** Outcomes and sequencing *)

(** A function either returns a value in a new state, or the process is
    stopped: by [Die] (a failed [CHECK_*] or an [...OrDie] primitive) or
    by a memory fault on an inaccessible address. *)
Inductive outcome (A : Type) : Type :=
| Returns (a : A) (s : state)
| Die
| Segv.
Arguments Returns {A} a s.
Arguments Die {A}.
Arguments Segv {A}.

Definition run (A : Type) : Type := state -> outcome A.

Definition ret {A} (a : A) : run A := fun s => Returns a s.

Definition bind {A B} (m : run A) (k : A -> run B) : run B :=
  fun s => match m s with
           | Returns a s' => k a s'
           | Die => Die
           | Segv => Segv
           end.

Notation "'let*' x := m 'in' k" := (bind m (fun x => k))
  (at level 10, x name, m at level 200, k at level 200, only parsing).
Notation "m ;; k" := (bind m (fun _ => k))
  (at level 100, k at level 200, right associativity, only parsing).

Definition get_tls {A} (f : thread_locals -> A) : run A :=
  fun s => Returns (f (tls s)) s.

Definition set_tls (f : thread_locals -> thread_locals) : run unit :=
  fun s => Returns tt (with_tls f s).

(** ** Assertions and primitives of sanitizer_common *)

(** Modelled from the spec: the [CHECK_GE], [CHECK_EQ] and [CHECK_NE]
    macros of sanitizer_common are missing; a violated check is a fatal
    integrity-check failure and the process aborts immediately. *)
Definition CHECK (b : bool) : run unit :=
  fun s => if b then Returns tt s else Die.

Definition CHECK_GE (a b : Z) : run unit := CHECK (b <=? a).
Definition CHECK_EQ (a b : Z) : run unit := CHECK (a =? b).
Definition CHECK_NE (a b : Z) : run unit := CHECK (negb (a =? b)).

(** Modelled from the spec: [MmapOrDie] of sanitizer_common is missing; it
    maps a contiguous readable and writable range of [size] bytes and
    returns its start, and it aborts the process when the mapping cannot be
    made. [kernel] is the answer of the operating system to the request:
    the start it chose, or [None] when it refuses. *)
Definition MmapOrDie (kernel : option Z) (size : Z) : run Z :=
  fun s => match kernel with
           | Some addr => Returns addr (with_event (EvMmap addr size) s)
           | None => Die
           end.

(** Modelled from the spec: [MprotectNoAccess] of sanitizer_common is
    missing; it makes the [size] bytes from [addr] inaccessible. *)
Definition MprotectNoAccess (addr size : Z) : run unit :=
  fun s => Returns tt (with_event (EvProtNone addr size) s).

(** Modelled from the spec: [UnmapOrDie] of sanitizer_common is missing; it
    unmaps the [size] bytes from [addr] in one operation. *)
Definition UnmapOrDie (addr size : Z) : run unit :=
  fun s => Returns tt (with_event (EvUnmap addr size) s).

(** ** Memory accesses *)

Definition word_bytes : Z := 8.

(** Every byte of the word at [a] is readable and writable. *)
Definition word_accessible (log : list sys_event) (a : Z) : bool :=
  forallb (fun i => bool_decide (perm_at log (a + i) = ReadWrite))
          (seqZ 0 word_bytes).

Definition store (a v : Z) : run unit :=
  fun s => if word_accessible (vm_log s) a
           then Returns tt (with_word a v s)
           else Segv.

Definition load (a : Z) : run Z :=
  fun s => if word_accessible (vm_log s) a
           then Returns (default 0 (heap s !! a)) s
           else Segv.

(** ** Region allocator and per-thread stack state *)

Definition unsafe_stack_alloc (kernel : option Z) (size guard : Z) : run Z :=
  CHECK_GE (wrap (size + guard)) size ;;
  let* addr := MmapOrDie kernel (wrap (size + guard)) in
  MprotectNoAccess addr guard ;;
  ret (wrap (addr + guard)).

Definition unsafe_stack_setup (start size guard : Z) : run unit :=
  CHECK_GE (wrap (start + size)) start ;;
  CHECK_GE (wrap (start + guard)) start ;;
  let stack_ptr := wrap (start + size) in
  CHECK_EQ (Z.land stack_ptr (kStackAlign - 1)) 0 ;;
  set_tls (set_stack stack_ptr start size guard).

Definition unsafe_stack_free : run unit :=
  let* start := get_tls unsafe_stack_start in
  let* size := get_tls unsafe_stack_size in
  let* guard := get_tls unsafe_stack_guard in
  (if negb (start =? 0)
   then UnmapOrDie (wrap (start - guard)) (wrap (size + guard))
   else ret tt) ;;
  set_tls (set_unsafe_stack_start 0).

(** ** Thread-specific data *)

(** [pthread_setspecific (thread_cleanup_key, v)]: the calling thread's
    value for the key becomes [v]. *)
Definition pthread_setspecific (v : Z) : run unit :=
  set_tls (set_thread_cleanup_value v).

(** [pthread_key_create (&thread_cleanup_key, thread_cleanup_handler)]: a
    new key holds NULL in every thread, which is what
    [thread_cleanup_value] of a thread that never set it already is. *)
Definition pthread_key_create : run unit := ret tt.

(** [INTERCEPT_FUNCTION (pthread_create)]: routes later calls of
    [pthread_create] to the interceptor; none of the modelled state
    changes. *)
Definition INTERCEPT_FUNCTION_pthread_create : run unit := ret tt.

(** ** Handoff record *)

(** [struct tinfo]: five word-sized fields, no padding. *)
Module tinfo.
Definition start_routine : Z := 0.
Definition start_routine_arg : Z := 8.
Definition unsafe_stack_start : Z := 16.
Definition unsafe_stack_size : Z := 24.
Definition unsafe_stack_guard : Z := 32.
Definition sizeof : Z := 40.
Definition field (p off : Z) : Z := wrap (p + off).
End tinfo.

(** [pthread_attr_t], as far as the interceptor reads it. *)
Record pthread_attr_t : Type := {
  stacksize : Z;
  guardsize : Z
}.

(** The arguments the interceptor hands to [REAL(pthread_create)], whose
    return value it returns unchanged. *)
Record spawn_request : Type := {
  spawn_thread : Z;
  spawn_attr : option pthread_attr_t;
  spawn_entry : Z -> run Z;
  spawn_arg : Z
}.

Section Runtime.
Context `{platform}.

(** What calling the function pointer [f] on the argument [a] does: the
    code of the application, about which nothing is assumed. *)
Variable invoke : Z -> Z -> run Z.

(** Wrap the thread function in order to deallocate the unsafe stack
    when the thread terminates by returning from its main function. *)
Definition thread_start (arg : Z) : run Z :=
  let tinfo := arg in
  let* start_routine := load (tinfo.field tinfo tinfo.start_routine) in
  let* start_routine_arg :=
    load (tinfo.field tinfo tinfo.start_routine_arg) in
  let* start := load (tinfo.field tinfo tinfo.unsafe_stack_start) in
  let* size := load (tinfo.field tinfo tinfo.unsafe_stack_size) in
  let* guard := load (tinfo.field tinfo tinfo.unsafe_stack_guard) in
  unsafe_stack_setup start size guard ;;
  pthread_setspecific 1 ;;
  invoke start_routine start_routine_arg.

(** Thread-specific data destructor. *)
Definition thread_cleanup_handler (_iter : Z) : run unit :=
  let iter := _iter in
  if iter <? PTHREAD_DESTRUCTOR_ITERATIONS
  then pthread_setspecific (wrap (iter + 1))
  else unsafe_stack_free.

(** Intercept thread creation operation to allocate and setup the unsafe
    stack. [tmpattr] is what [pthread_attr_init] yields, the default
    attributes of the platform. *)
Definition pthread_create (tmpattr : pthread_attr_t) (kernel : option Z)
    (thread : Z) (attr : option pthread_attr_t)
    (start_routine arg : Z) : run spawn_request :=
  let size :=
    match attr with
    | Some a => stacksize a
    | None => stacksize tmpattr
    end in
  let guard :=
    match attr with
    | Some a => guardsize a
    | None => guardsize tmpattr
    end in
  CHECK_NE size 0 ;;
  CHECK_EQ (Z.land size (kStackAlign - 1)) 0 ;;
  CHECK_EQ (Z.land guard (PAGE_SIZE - 1)) 0 ;;
  let* addr := unsafe_stack_alloc kernel size guard in
  let tinfo := wrap (wrap (addr + size) - tinfo.sizeof) in
  store (tinfo.field tinfo tinfo.start_routine) start_routine ;;
  store (tinfo.field tinfo tinfo.start_routine_arg) arg ;;
  store (tinfo.field tinfo tinfo.unsafe_stack_start) addr ;;
  store (tinfo.field tinfo tinfo.unsafe_stack_size) size ;;
  store (tinfo.field tinfo tinfo.unsafe_stack_guard) guard ;;
  ret {| spawn_thread := thread;
         spawn_attr := attr;
         spawn_entry := thread_start;
         spawn_arg := tinfo |}.

(** The process-wide initializer. [rc] and [rlim_cur] are what
    [getrlimit (RLIMIT_STACK, &limit)] returns and stores. *)
Definition __safestack_init (rc rlim_cur : Z) (kernel : option Z)
    : run unit :=
  let size := kDefaultUnsafeStackSize in
  let guard := 4096 in
  let size :=
    if (rc =? 0) && negb (rlim_cur =? RLIM_INFINITY)
    then rlim_cur else size in
  let* addr := unsafe_stack_alloc kernel size guard in
  unsafe_stack_setup addr size guard ;;
  INTERCEPT_FUNCTION_pthread_create ;;
  pthread_key_create.

Definition __get_unsafe_stack_start : run Z := get_tls unsafe_stack_start.

Definition __get_unsafe_stack_ptr : run Z :=
  get_tls __safestack_unsafe_stack_ptr.

(** ** The destructor rounds of thread exit

    The thread-specific-data facility of the platform, for the one key
    of this runtime: in each round a thread whose value for the key is
    not NULL has the value reset to NULL and the destructor called on
    the old value; there are at most [PTHREAD_DESTRUCTOR_ITERATIONS]
    rounds. *)
Definition destructor_round : run unit :=
  let* v := get_tls thread_cleanup_value in
  if v =? 0 then ret tt
  else pthread_setspecific 0 ;; thread_cleanup_handler v.

Fixpoint destructor_rounds (n : nat) : run unit :=
  match n with
  | O => ret tt
  | S n' => destructor_round ;; destructor_rounds n'
  end.

Definition thread_exit : run unit :=
  destructor_rounds (Z.to_nat PTHREAD_DESTRUCTOR_ITERATIONS).

End Runtime.

(** ** What the main thread does after initialization

    Between the initializer and its exit the main thread runs code of the
    application. Of that code the runtime sees the calls of
    [pthread_create], which the interceptor receives, and the writes of
    compiled code to the exported [__safestack_unsafe_stack_ptr]; the other
    thread-locals and [thread_cleanup_key] are [static] and out of its
    reach. *)
Inductive main_thread_op : Type :=
| OpPthreadCreate (tmpattr : pthread_attr_t) (kernel : option Z)
    (thread : Z) (attr : option pthread_attr_t) (start_routine arg : Z)
| OpSetUnsafeStackPtr (v : Z).

Section MainThread.
Context `{platform}.
Variable invoke : Z -> Z -> run Z.

Definition run_op (o : main_thread_op) : run unit :=
  match o with
  | OpPthreadCreate tmpattr kernel thread attr start_routine arg =>
      pthread_create invoke tmpattr kernel thread attr start_routine arg ;;
      ret tt
  | OpSetUnsafeStackPtr v => set_tls (set_unsafe_stack_ptr v)
  end.

Fixpoint run_ops (ops : list main_thread_op) : run unit :=
  match ops with
  | [] => ret tt
  | o :: rest => run_op o ;; run_ops rest
  end.

(** The main thread up to the point where it ends: the initializer, then
    the application. *)
Definition main_thread (rc rlim_cur : Z) (kernel : option Z)
    (ops : list main_thread_op) : run unit :=
  __safestack_init rc rlim_cur kernel ;; run_ops ops.

End MainThread.

(** ** Vocabulary of the statements *)

(** The attributes the interceptor reads its sizes from. *)
Definition effective_attr (attr : option pthread_attr_t)
    (tmpattr : pthread_attr_t) : pthread_attr_t :=
  match attr with
  | Some a => a
  | None => tmpattr
  end.

(** Memory after the five fields of a handoff record were stored at [t]. *)
Definition handoff_stored (t f a start size guard : Z) (h : gmap Z Z)
    : gmap Z Z :=
  <[t + tinfo.unsafe_stack_guard := guard]>
    (<[t + tinfo.unsafe_stack_size := size]>
       (<[t + tinfo.unsafe_stack_start := start]>
          (<[t + tinfo.start_routine_arg := a]>
             (<[t + tinfo.start_routine := f]> h)))).

(** The state of the creating thread once a region of [size] usable bytes
    behind [guard] guard bytes was mapped at [m] and the handoff record
    written at its top end. *)
Definition after_create (m size guard f a : Z) (s : state) : state :=
  {| tls := tls s;
     vm_log := EvProtNone m guard :: EvMmap m (size + guard) :: vm_log s;
     heap := handoff_stored (m + guard + size - tinfo.sizeof) f a
               (m + guard) size guard (heap s) |}.

(** The state in which a created thread enters the code of the
    application: the region installed, the cleanup key armed with 1. *)
Definition at_user_entry (m size guard : Z) (s : state) : state :=
  {| tls := {| __safestack_unsafe_stack_ptr := m + guard + size;
               unsafe_stack_start := m + guard;
               unsafe_stack_size := size;
               unsafe_stack_guard := guard;
               thread_cleanup_value := 1 |};
     vm_log := vm_log s;
     heap := heap s |}.

(** The trampoline, started on [arg] in state [s], calls [f] on [a] in
    state [su], whatever the code behind [f] is, and its result is the
    result of that one call. *)
Definition calls_user_code `{platform} (arg : Z) (s : state)
    (f a : Z) (su : state) : Prop :=
  forall invoke : Z -> Z -> run Z, thread_start invoke arg s = invoke f a su.

(** Every unmap call in the log [after] was already in the log [before]:
    in between, nothing was released. *)
Definition no_new_unmap (before after : list sys_event) : Prop :=
  forall addr len,
    In (EvUnmap addr len) after -> In (EvUnmap addr len) before.

(** ** Sample inputs *)

(** A process that has mapped nothing and stored nothing yet, seen from a
    thread that has just started. *)
Definition empty_state : state :=
  {| tls := fresh_thread_locals; vm_log := []; heap := ∅ |}.

(** The thread attributes glibc starts from: 8 MiB of stack, one guard
    page. *)
Definition glibc_default_attr : pthread_attr_t :=
  {| stacksize := 8388608; guardsize := 4096 |}.

(** An explicit request for 1 MiB of stack and one guard page. *)
Definition one_mib_attr : pthread_attr_t :=
  {| stacksize := 1048576; guardsize := 4096 |}.

(** A stack size that passes the three checks and is smaller than the
    handoff record. *)
Definition tiny_attr : pthread_attr_t :=
  {| stacksize := 16; guardsize := 4096 |}.

(** A page-aligned address in the mmap area of a 47-bit user space. *)
Definition sample_mapping : Z := 0x7f0000000000.

(** An application function that returns the sum of its address and its
    argument. *)
Definition sample_invoke (f a : Z) : run Z := fun s => Returns (f + a) s.

(** A thread with the region of [one_mib_attr] at [sample_mapping]
    installed and the cleanup key armed. *)
Definition armed_state : state :=
  at_user_entry sample_mapping 1048576 4096
    (after_create sample_mapping 1048576 4096 111 222 empty_state).

(** A main thread that pushes a frame on its unsafe stack, creates a
    thread with [one_mib_attr] and pops the frame again. *)
Definition sample_ops : list main_thread_op :=
  [ OpSetUnsafeStackPtr (sample_mapping + 4096 + 8388608 - 64);
    OpPthreadCreate glibc_default_attr (Some 0x7e0000000000) 0
      (Some one_mib_attr) 111 222;
    OpSetUnsafeStackPtr (sample_mapping + 4096 + 8388608) ].

(** ** The life of a created thread *)

(** The body of a created thread as the platform runs it: the entry point
    handed to the real [pthread_create] on its argument, then the
    destructor rounds of thread exit; the result of the thread is the
    result of the entry point. *)
Definition run_thread `{platform} (entry : Z -> run Z) (arg : Z) : run Z :=
  let* r := entry arg in
  thread_exit ;;
  ret r.

(** The [static] thread-locals of the runtime and the value of its key
    are the same in [t] and [t']: what code outside this file cannot
    change. *)
Definition static_locals_kept (t t' : thread_locals) : Prop :=
  unsafe_stack_start t' = unsafe_stack_start t /\
  unsafe_stack_size t' = unsafe_stack_size t /\
  unsafe_stack_guard t' = unsafe_stack_guard t /\
  thread_cleanup_value t' = thread_cleanup_value t.

(** The outcome [o] of a creation, with NULL in place of the attributes
    handed to the real [pthread_create]. *)
Definition with_null_attr (o : outcome spawn_request)
    : outcome spawn_request :=
  match o with
  | Returns r s =>
      Returns {| spawn_thread := spawn_thread r;
                 spawn_attr := None;
                 spawn_entry := spawn_entry r;
                 spawn_arg := spawn_arg r |} s
  | Die => Die
  | Segv => Segv
  end.

(** The addresses of the five fields of the handoff record at [t]. *)
Definition record_fields (t : Z) : list Z :=
  [ tinfo.field t tinfo.start_routine;
    tinfo.field t tinfo.start_routine_arg;
    tinfo.field t tinfo.unsafe_stack_start;
    tinfo.field t tinfo.unsafe_stack_size;
    tinfo.field t tinfo.unsafe_stack_guard ].

(** An application function that pushes and pops a frame of 64 bytes on
    the unsafe stack, stores its argument in the frame and returns the
    sum of its address and its argument. *)
Definition framing_invoke (f a : Z) : run Z :=
  let* sp := get_tls __safestack_unsafe_stack_ptr in
  set_tls (set_unsafe_stack_ptr (sp - 64)) ;;
  store (sp - 64) a ;;
  set_tls (set_unsafe_stack_ptr sp) ;;
  ret (f + a).

(** * Properties *)

(** ** Words and bit masks *)

Lemma word_modulus_eq : word_modulus = 18446744073709551616.
Proof. reflexivity. Qed.

Lemma wrap_small x : in_word x -> wrap x = x.
Proof. intros Hx. unfold wrap. apply Z.mod_small. exact Hx. Qed.

Lemma wrap_in_word x : in_word (wrap x).
Proof.
  unfold wrap, in_word. apply Z.mod_pos_bound. rewrite word_modulus_eq. lia.
Qed.

Lemma in_word_by_eval x :
  (0 <=? x) && (x <? word_modulus) = true -> in_word x.
Proof.
  intros Hx. apply andb_true_iff in Hx as [H0 H1].
  apply Z.leb_le in H0. apply Z.ltb_lt in H1. split; assumption.
Qed.

(** An unsigned sum is below one of its terms exactly when it wrapped. *)
Lemma wrap_add_overflow x y :
  in_word x -> in_word y ->
  (x <=? wrap (x + y)) = (x + y <? word_modulus).
Proof.
  unfold in_word. intros Hx Hy.
  destruct (Z.ltb_spec (x + y) word_modulus) as [Hlt | Hge].
  - rewrite wrap_small by (unfold in_word; lia). apply Z.leb_le. lia.
  - apply Z.leb_gt.
    assert (Hw : wrap (x + y) = x + y - word_modulus).
    { unfold wrap. symmetry. apply Z.mod_unique_pos with (q := 1); lia. }
    lia.
Qed.

Lemma land_mask_mod x n : 0 <= n -> Z.land x (2 ^ n - 1) = x mod 2 ^ n.
Proof.
  intros Hn. replace (2 ^ n - 1) with (Z.ones n).
  - apply Z.land_ones. exact Hn.
  - rewrite Z.ones_equiv. lia.
Qed.

Lemma land_stack_align x : Z.land x (kStackAlign - 1) = x mod 16.
Proof. exact (land_mask_mod x 4 ltac:(lia)). Qed.

Lemma wrap_mod_16 x : wrap x mod 16 = x mod 16.
Proof.
  unfold wrap. rewrite word_modulus_eq.
  replace 18446744073709551616 with (16 * 1152921504606846976) by reflexivity.
  rewrite Z.rem_mul_r by lia.
  rewrite Z.mul_comm, Z.mod_add by lia. apply Z.mod_mod. lia.
Qed.

(** ** Sequencing *)

Lemma bind_returns {A B} (m : run A) (k : A -> run B) s a s' :
  m s = Returns a s' -> bind m k s = k a s'.
Proof. intros Hm. unfold bind. rewrite Hm. reflexivity. Qed.

Lemma bind_die {A B} (m : run A) (k : A -> run B) s :
  m s = Die -> bind m k s = Die.
Proof. intros Hm. unfold bind. rewrite Hm. reflexivity. Qed.

Lemma bind_segv {A B} (m : run A) (k : A -> run B) s :
  m s = Segv -> bind m k s = Segv.
Proof. intros Hm. unfold bind. rewrite Hm. reflexivity. Qed.

Lemma bind_inv {A B} (m : run A) (k : A -> run B) s b s2 :
  bind m k s = Returns b s2 ->
  exists a s1, m s = Returns a s1 /\ k a s1 = Returns b s2.
Proof.
  unfold bind. destruct (m s) as [a s1 | |]; intros Hk; try discriminate.
  exists a, s1. split; [reflexivity | exact Hk].
Qed.

Lemma CHECK_inv b s u s' : CHECK b s = Returns u s' -> b = true /\ s' = s.
Proof.
  unfold CHECK. destruct b; intros Hc; [| discriminate].
  injection Hc as _ Hs. split; [reflexivity | symmetry; exact Hs].
Qed.

Lemma CHECK_true b s : b = true -> CHECK b s = Returns tt s.
Proof. intros ->. reflexivity. Qed.

Lemma CHECK_false b s : b = false -> CHECK b s = Die.
Proof. intros ->. reflexivity. Qed.

(** ** Release of a region *)

Lemma unsafe_stack_free_eq s :
  unsafe_stack_free s =
  Returns tt
    {| tls := set_unsafe_stack_start 0 (tls s);
       vm_log :=
         if unsafe_stack_start (tls s) =? 0 then vm_log s
         else EvUnmap
                (wrap (unsafe_stack_start (tls s) - unsafe_stack_guard (tls s)))
                (wrap (unsafe_stack_size (tls s) + unsafe_stack_guard (tls s)))
              :: vm_log s;
       heap := heap s |}.
Proof.
  unfold unsafe_stack_free, bind, get_tls, set_tls, UnmapOrDie, ret.
  destruct (unsafe_stack_start (tls s) =? 0); reflexivity.
Qed.

(** ** The destructor rounds *)

Section Rounds.
Context `{platform}.

Lemma handler_rearms iter s :
  0 <= iter < PTHREAD_DESTRUCTOR_ITERATIONS ->
  PTHREAD_DESTRUCTOR_ITERATIONS < word_modulus ->
  thread_cleanup_handler iter s =
  Returns tt (with_tls (set_thread_cleanup_value (iter + 1)) s).
Proof.
  intros Hi Hk. unfold thread_cleanup_handler.
  destruct (Z.ltb_spec iter PTHREAD_DESTRUCTOR_ITERATIONS) as [_ | Hge];
    [| lia].
  rewrite wrap_small by (unfold in_word; lia). reflexivity.
Qed.

Lemma handler_last iter s :
  PTHREAD_DESTRUCTOR_ITERATIONS <= iter ->
  thread_cleanup_handler iter s = unsafe_stack_free s.
Proof.
  intros Hi. unfold thread_cleanup_handler.
  destruct (Z.ltb_spec iter PTHREAD_DESTRUCTOR_ITERATIONS) as [Hlt | _];
    [lia | reflexivity].
Qed.

Lemma round_idle s :
  thread_cleanup_value (tls s) = 0 -> destructor_round s = Returns tt s.
Proof.
  intros Hv. unfold destructor_round, bind, get_tls. rewrite Hv. reflexivity.
Qed.

Lemma round_calls_handler s :
  thread_cleanup_value (tls s) <> 0 ->
  destructor_round s =
  thread_cleanup_handler (thread_cleanup_value (tls s))
    (with_tls (set_thread_cleanup_value 0) s).
Proof.
  intros Hv. unfold destructor_round, bind, get_tls.
  destruct (Z.eqb_spec (thread_cleanup_value (tls s)) 0) as [He | _];
    [contradiction | reflexivity].
Qed.

Lemma rounds_idle n s :
  thread_cleanup_value (tls s) = 0 -> destructor_rounds n s = Returns tt s.
Proof.
  intros Hv. induction n as [| n IH]; [reflexivity |].
  cbn [destructor_rounds]. rewrite (bind_returns _ _ _ _ _ (round_idle s Hv)).
  exact IH.
Qed.

Lemma rounds_app n m s :
  destructor_rounds (n + m) s =
  bind (destructor_rounds n) (fun _ => destructor_rounds m) s.
Proof.
  revert s. induction n as [| n IH]; intros s; [reflexivity |].
  cbn [Nat.add destructor_rounds]. unfold bind.
  destruct (destructor_round s) as [u s1 | |]; [| reflexivity ..].
  rewrite IH. reflexivity.
Qed.

(** While the counter stays below the ceiling every round only moves it
    on by one. *)
Lemma rounds_rearm n : forall s,
  PTHREAD_DESTRUCTOR_ITERATIONS < word_modulus ->
  1 <= thread_cleanup_value (tls s) ->
  thread_cleanup_value (tls s) + Z.of_nat n
    <= PTHREAD_DESTRUCTOR_ITERATIONS ->
  destructor_rounds n s =
  Returns tt
    (with_tls
       (set_thread_cleanup_value (thread_cleanup_value (tls s) + Z.of_nat n))
       s).
Proof.
  induction n as [| n IH]; intros s Hk Hv Hn.
  - cbn [destructor_rounds ret]. f_equal.
    destruct s as [[p st sz g v] log h]. cbn. rewrite Z.add_0_r. reflexivity.
  - cbn [destructor_rounds].
    rewrite (bind_returns _ _ s tt
               (with_tls (set_thread_cleanup_value
                            (thread_cleanup_value (tls s) + 1)) s)).
    + rewrite IH; cbn; try lia.
      f_equal. unfold with_tls, set_thread_cleanup_value. cbn.
      do 2 f_equal. lia.
    + rewrite round_calls_handler by lia.
      rewrite handler_rearms by (cbn; lia). reflexivity.
Qed.

(** From an armed thread with an installed region, [n] rounds at or past
    the ceiling leave the same state: the region was unmapped once. *)
Lemma rounds_release n s :
  1 <= PTHREAD_DESTRUCTOR_ITERATIONS < word_modulus ->
  thread_cleanup_value (tls s) = 1 ->
  unsafe_stack_start (tls s) <> 0 ->
  PTHREAD_DESTRUCTOR_ITERATIONS <= Z.of_nat n ->
  destructor_rounds n s =
  Returns tt
    {| tls := set_unsafe_stack_start 0 (set_thread_cleanup_value 0 (tls s));
       vm_log :=
         EvUnmap
           (wrap (unsafe_stack_start (tls s) - unsafe_stack_guard (tls s)))
           (wrap (unsafe_stack_size (tls s) + unsafe_stack_guard (tls s)))
         :: vm_log s;
       heap := heap s |}.
Proof.
  intros Hk Hv Hst Hn.
  set (k := Z.to_nat (PTHREAD_DESTRUCTOR_ITERATIONS - 1)).
  replace n with (k + (1 + (n - S k)))%nat by lia.
  rewrite rounds_app.
  erewrite bind_returns by (apply rounds_rearm; subst k; lia).
  rewrite rounds_app.
  erewrite bind_returns.
  - apply rounds_idle. reflexivity.
  - cbn [destructor_rounds].
    erewrite bind_returns; [reflexivity |].
    rewrite round_calls_handler by (cbn; subst k; lia).
    rewrite handler_last by (cbn; subst k; lia).
    rewrite unsafe_stack_free_eq. cbn.
    destruct (Z.eqb_spec (unsafe_stack_start (tls s)) 0) as [He | _];
      [contradiction | reflexivity].
Qed.

End Rounds.

(** ** Protection of a freshly allocated region *)

Lemma perm_at_guard log m len guard a :
  m <= a < m + guard ->
  perm_at (EvProtNone m guard :: EvMmap m len :: log) a = NoAccess.
Proof.
  intros Ha. cbn [perm_at]. unfold in_range.
  destruct (Z.leb_spec m a); [| lia].
  destruct (Z.ltb_spec a (m + guard)); [reflexivity | lia].
Qed.

Lemma perm_at_usable log m len guard a :
  m + guard <= a < m + len -> 0 <= guard ->
  perm_at (EvProtNone m guard :: EvMmap m len :: log) a = ReadWrite.
Proof.
  intros Ha Hg. cbn [perm_at]. unfold in_range.
  destruct (Z.leb_spec m a); [| lia].
  destruct (Z.ltb_spec a (m + guard)); [lia |].
  destruct (Z.ltb_spec a (m + len)); [reflexivity | lia].
Qed.

Lemma word_accessible_intro log a :
  (forall i, 0 <= i < word_bytes -> perm_at log (a + i) = ReadWrite) ->
  word_accessible log a = true.
Proof.
  intros Hall. unfold word_accessible. apply forallb_forall.
  intros i Hi. apply bool_decide_eq_true. apply Hall.
  apply list_elem_of_In, elem_of_seqZ in Hi. lia.
Qed.

Lemma word_accessible_first log a :
  perm_at log a <> ReadWrite -> word_accessible log a = false.
Proof.
  intros Hp. unfold word_accessible.
  change (seqZ 0 word_bytes) with (0 :: seqZ 1 7).
  cbn [forallb]. rewrite Z.add_0_r.
  rewrite (bool_decide_eq_false_2 _ Hp). reflexivity.
Qed.

Lemma store_ok a v s :
  word_accessible (vm_log s) a = true ->
  store a v s = Returns tt (with_word a v s).
Proof. intros Ha. unfold store. rewrite Ha. reflexivity. Qed.

Lemma load_ok a s :
  word_accessible (vm_log s) a = true ->
  load a s = Returns (default 0 (heap s !! a)) s.
Proof. intros Ha. unfold load. rewrite Ha. reflexivity. Qed.

(** ** The region allocator *)

Lemma unsafe_stack_alloc_overflow kernel size guard s :
  in_word size -> in_word guard -> word_modulus <= size + guard ->
  unsafe_stack_alloc kernel size guard s = Die.
Proof.
  intros Hs Hg Hov. unfold unsafe_stack_alloc, CHECK_GE.
  apply bind_die, CHECK_false.
  rewrite wrap_add_overflow by assumption. apply Z.ltb_ge. exact Hov.
Qed.

Lemma unsafe_stack_alloc_refused size guard s :
  unsafe_stack_alloc None size guard s = Die.
Proof.
  unfold unsafe_stack_alloc, bind, CHECK_GE, CHECK.
  destruct (size <=? wrap (size + guard)); reflexivity.
Qed.

Lemma unsafe_stack_alloc_eq m size guard s :
  in_word size -> in_word guard -> size + guard < word_modulus ->
  in_word (m + guard) ->
  unsafe_stack_alloc (Some m) size guard s =
  Returns (m + guard)
    (with_event (EvProtNone m guard) (with_event (EvMmap m (size + guard)) s)).
Proof.
  intros Hs Hg Hov Hm. unfold unsafe_stack_alloc, CHECK_GE.
  erewrite bind_returns.
  2: { apply CHECK_true. rewrite wrap_add_overflow by assumption.
       apply Z.ltb_lt. exact Hov. }
  unfold bind, MmapOrDie, MprotectNoAccess, ret.
  rewrite (wrap_small (size + guard)) by (unfold in_word in *; lia).
  rewrite (wrap_small (m + guard)) by exact Hm. reflexivity.
Qed.

Lemma unsafe_stack_alloc_inv kernel size guard s addr s' :
  in_word size -> in_word guard ->
  unsafe_stack_alloc kernel size guard s = Returns addr s' ->
  size + guard < word_modulus /\
  exists m, kernel = Some m /\ addr = wrap (m + guard) /\
    s' = with_event (EvProtNone m guard)
           (with_event (EvMmap m (size + guard)) s).
Proof.
  intros Hs Hg Hr.
  destruct (Z.lt_ge_cases (size + guard) word_modulus) as [Hlt | Hge].
  2: { rewrite unsafe_stack_alloc_overflow in Hr by assumption.
       discriminate. }
  split; [exact Hlt |].
  destruct kernel as [m |].
  2: { rewrite unsafe_stack_alloc_refused in Hr. discriminate. }
  exists m. split; [reflexivity |].
  unfold unsafe_stack_alloc, CHECK_GE in Hr.
  erewrite bind_returns in Hr.
  2: { apply CHECK_true. rewrite wrap_add_overflow by assumption.
       apply Z.ltb_lt. exact Hlt. }
  unfold bind, MmapOrDie, MprotectNoAccess, ret in Hr.
  rewrite (wrap_small (size + guard)) in Hr by (unfold in_word in *; lia).
  injection Hr as Ha Hs'. split; [symmetry; exact Ha | symmetry; exact Hs'].
Qed.

(** ** Installing the per-thread stack state *)

Lemma unsafe_stack_setup_eq start size guard s :
  in_word start -> in_word size -> in_word guard ->
  start + size < word_modulus -> start + guard < word_modulus ->
  (start + size) mod 16 = 0 ->
  unsafe_stack_setup start size guard s =
  Returns tt (with_tls (set_stack (start + size) start size guard) s).
Proof.
  intros Hst Hsz Hg Hs1 Hs2 Hal. unfold unsafe_stack_setup, CHECK_GE, CHECK_EQ.
  erewrite bind_returns.
  2: { apply CHECK_true. rewrite wrap_add_overflow by assumption.
       apply Z.ltb_lt. exact Hs1. }
  erewrite bind_returns.
  2: { apply CHECK_true. rewrite wrap_add_overflow by assumption.
       apply Z.ltb_lt. exact Hs2. }
  erewrite bind_returns.
  2: { apply CHECK_true. rewrite land_stack_align, wrap_mod_16.
       apply Z.eqb_eq. exact Hal. }
  rewrite wrap_small by (unfold in_word in *; lia). reflexivity.
Qed.

Lemma unsafe_stack_setup_misaligned start size guard s :
  (start + size) mod 16 <> 0 ->
  unsafe_stack_setup start size guard s = Die.
Proof.
  intros Hal. unfold unsafe_stack_setup, CHECK_GE, CHECK_EQ, bind, CHECK.
  destruct (start <=? wrap (start + size)); [| reflexivity].
  destruct (start <=? wrap (start + guard)); [| reflexivity].
  rewrite land_stack_align, wrap_mod_16.
  destruct (Z.eqb_spec ((start + size) mod 16) 0) as [He | _];
    [contradiction | reflexivity].
Qed.

Lemma unsafe_stack_setup_wraps start size guard s :
  in_word start -> in_word size -> in_word guard ->
  word_modulus <= start + size \/ word_modulus <= start + guard ->
  unsafe_stack_setup start size guard s = Die.
Proof.
  intros Hst Hsz Hg Hw. unfold unsafe_stack_setup, CHECK_GE, bind, CHECK.
  rewrite !wrap_add_overflow by assumption.
  destruct (Z.ltb_spec (start + size) word_modulus) as [H1 | H1];
    [| reflexivity].
  destruct (Z.ltb_spec (start + guard) word_modulus) as [H2 | H2];
    [| reflexivity].
  lia.
Qed.

Lemma unsafe_stack_setup_inv start size guard s u s' :
  in_word start -> in_word size -> in_word guard ->
  unsafe_stack_setup start size guard s = Returns u s' ->
  start + size < word_modulus /\ start + guard < word_modulus /\
  (start + size) mod 16 = 0 /\
  s' = with_tls (set_stack (start + size) start size guard) s.
Proof.
  intros Hst Hsz Hg Hr.
  destruct (Z.eq_dec ((start + size) mod 16) 0) as [Hal | Hal].
  2: { rewrite unsafe_stack_setup_misaligned in Hr by exact Hal.
       discriminate. }
  unfold unsafe_stack_setup, CHECK_GE in Hr.
  apply bind_inv in Hr as (u1 & s1 & Hc1 & Hr).
  apply CHECK_inv in Hc1 as [Hc1 ->].
  apply bind_inv in Hr as (u2 & s2 & Hc2 & Hr).
  apply CHECK_inv in Hc2 as [Hc2 ->].
  rewrite wrap_add_overflow in Hc1, Hc2 by assumption.
  apply Z.ltb_lt in Hc1, Hc2.
  repeat split; try assumption.
  apply bind_inv in Hr as (u3 & s3 & Hc3 & Hr).
  apply CHECK_inv in Hc3 as [_ ->].
  rewrite wrap_small in Hr by (unfold in_word in *; lia).
  unfold set_tls in Hr. injection Hr as _ Hs'. symmetry. exact Hs'.
Qed.

(** ** The interceptor and the trampoline *)

Lemma region_word_accessible log m size guard a :
  0 <= guard -> m + guard <= a -> a + word_bytes <= m + guard + size ->
  word_accessible (EvProtNone m guard :: EvMmap m (size + guard) :: log) a
  = true.
Proof.
  intros Hg Hlo Hhi. apply word_accessible_intro. intros i Hi.
  apply perm_at_usable; lia.
Qed.

Ltac unwrap :=
  repeat match goal with
         | |- context [wrap ?x] =>
             rewrite (wrap_small x)
               by (unfold in_word, tinfo.sizeof, tinfo.start_routine,
                     tinfo.start_routine_arg, tinfo.unsafe_stack_start,
                     tinfo.unsafe_stack_size, tinfo.unsafe_stack_guard,
                     word_bytes in *;
                   rewrite ?word_modulus_eq in *; lia)
         end.

Section Creation.
Context `{platform}.

Lemma page_mask_mod x : platform_ok -> Z.land x (PAGE_SIZE - 1) = x mod PAGE_SIZE.
Proof.
  intros (Hp & Hr & _). rewrite Hp. apply land_mask_mod. lia.
Qed.

Lemma page_multiple_of_16 x :
  platform_ok -> x mod PAGE_SIZE = 0 -> x mod 16 = 0.
Proof.
  intros (Hp & Hr & _) Hx.
  apply Z.mod_divide in Hx; [| rewrite Hp; lia].
  apply Z.mod_divide; [lia |].
  apply Z.divide_trans with (m := PAGE_SIZE); [| exact Hx].
  rewrite Hp. exists (2 ^ (Z.log2 PAGE_SIZE - 4)).
  change 16 with (2 ^ 4). rewrite <- Z.pow_add_r by lia.
  f_equal. lia.
Qed.

Lemma pthread_create_checks_pass invoke tmpattr kernel thread attr f a s :
  platform_ok ->
  stacksize (effective_attr attr tmpattr) <> 0 ->
  stacksize (effective_attr attr tmpattr) mod 16 = 0 ->
  guardsize (effective_attr attr tmpattr) mod PAGE_SIZE = 0 ->
  pthread_create invoke tmpattr kernel thread attr f a s =
  (let size := stacksize (effective_attr attr tmpattr) in
   let guard := guardsize (effective_attr attr tmpattr) in
   let* addr := unsafe_stack_alloc kernel size guard in
   let tinfo := wrap (wrap (addr + size) - tinfo.sizeof) in
   store (tinfo.field tinfo tinfo.start_routine) f ;;
   store (tinfo.field tinfo tinfo.start_routine_arg) a ;;
   store (tinfo.field tinfo tinfo.unsafe_stack_start) addr ;;
   store (tinfo.field tinfo tinfo.unsafe_stack_size) size ;;
   store (tinfo.field tinfo tinfo.unsafe_stack_guard) guard ;;
   ret {| spawn_thread := thread;
          spawn_attr := attr;
          spawn_entry := thread_start invoke;
          spawn_arg := tinfo |}) s.
Proof.
  intros Hok Hnz Hal Hpg. unfold pthread_create.
  replace (match attr with Some a0 => stacksize a0 | None => stacksize tmpattr end)
    with (stacksize (effective_attr attr tmpattr)) by (destruct attr; reflexivity).
  replace (match attr with Some a0 => guardsize a0 | None => guardsize tmpattr end)
    with (guardsize (effective_attr attr tmpattr)) by (destruct attr; reflexivity).
  unfold CHECK_NE, CHECK_EQ.
  erewrite bind_returns.
  2: { apply CHECK_true. apply negb_true_iff, Z.eqb_neq. exact Hnz. }
  erewrite bind_returns.
  2: { apply CHECK_true. rewrite land_stack_align. apply Z.eqb_eq. exact Hal. }
  erewrite bind_returns.
  2: { apply CHECK_true. rewrite page_mask_mod by exact Hok.
       apply Z.eqb_eq. exact Hpg. }
  reflexivity.
Qed.

(** A creation whose sizes pass the checks and leave room for the record,
    answered by the kernel with a mapping inside the address space. *)
Lemma pthread_create_eq invoke tmpattr m thread attr f a s :
  platform_ok ->
  let size := stacksize (effective_attr attr tmpattr) in
  let guard := guardsize (effective_attr attr tmpattr) in
  in_word size -> in_word guard ->
  size mod 16 = 0 -> guard mod PAGE_SIZE = 0 ->
  tinfo.sizeof <= size ->
  0 <= m -> m + guard + size < word_modulus ->
  pthread_create invoke tmpattr (Some m) thread attr f a s =
  Returns {| spawn_thread := thread;
             spawn_attr := attr;
             spawn_entry := thread_start invoke;
             spawn_arg := m + guard + size - tinfo.sizeof |}
          (after_create m size guard f a s).
Proof.
  intros Hok size guard Hsz Hg Hal Hpg Hroom Hm Htop.
  rewrite pthread_create_checks_pass;
    try assumption; [| unfold tinfo.sizeof in *; fold size; lia].
  fold size guard. cbv zeta.
  erewrite bind_returns.
  2: { apply unsafe_stack_alloc_eq; unfold in_word in *; lia. }
  unfold tinfo.field. unwrap.
  repeat (erewrite bind_returns;
          [| apply store_ok; cbn [vm_log with_word with_event];
             apply region_word_accessible;
             unfold in_word, tinfo.sizeof, tinfo.start_routine,
               tinfo.start_routine_arg, tinfo.unsafe_stack_start,
               tinfo.unsafe_stack_size, tinfo.unsafe_stack_guard,
               word_bytes in *; lia]).
  reflexivity.
Qed.

End Creation.

Section Trampoline.
Context `{platform}.

Lemma unsafe_stack_setup_ptr start size guard s u s' :
  unsafe_stack_setup start size guard s = Returns u s' ->
  __safestack_unsafe_stack_ptr (tls s') = wrap (start + size) /\
  wrap (start + size) mod 16 = 0 /\
  (start <=? wrap (start + size)) = true /\
  thread_cleanup_value (tls s') = thread_cleanup_value (tls s).
Proof.
  intros Hr. unfold unsafe_stack_setup, CHECK_GE, CHECK_EQ in Hr.
  apply bind_inv in Hr as (u1 & s1 & Hc1 & Hr).
  apply CHECK_inv in Hc1 as [Hc1 ->].
  apply bind_inv in Hr as (u2 & s2 & Hc2 & Hr).
  apply CHECK_inv in Hc2 as [Hc2 ->].
  apply bind_inv in Hr as (u3 & s3 & Hc3 & Hr).
  apply CHECK_inv in Hc3 as [Hc3 ->].
  rewrite land_stack_align in Hc3. apply Z.eqb_eq in Hc3.
  unfold set_tls in Hr. injection Hr as _ <-.
  repeat split; [exact Hc3 | exact Hc1].
Qed.

(** Whatever the trampoline finds in memory, when it gets as far as the
    code of the application the stack pointer it installed is aligned. *)
Lemma calls_user_code_aligned arg s f a su :
  calls_user_code arg s f a su ->
  __safestack_unsafe_stack_ptr (tls su) mod 16 = 0 /\
  thread_cleanup_value (tls su) = 1.
Proof.
  intros Hcall.
  specialize (Hcall (fun _ _ s1 => Returns 0 s1)). cbv beta in Hcall.
  unfold thread_start in Hcall.
  apply bind_inv in Hcall as (v1 & s1 & _ & Hcall).
  apply bind_inv in Hcall as (v2 & s2 & _ & Hcall).
  apply bind_inv in Hcall as (v3 & s3 & _ & Hcall).
  apply bind_inv in Hcall as (v4 & s4 & _ & Hcall).
  apply bind_inv in Hcall as (v5 & s5 & _ & Hcall).
  apply bind_inv in Hcall as (u & s6 & Hset & Hcall).
  apply unsafe_stack_setup_ptr in Hset as (Hptr & Hal & _).
  apply bind_inv in Hcall as (u' & s7 & Hkey & Hcall).
  unfold pthread_setspecific, set_tls in Hkey. injection Hkey as _ <-.
  injection Hcall as <-. cbn. rewrite Hptr. split; [exact Hal | reflexivity].
Qed.

Lemma handoff_lookups t f a start size guard (h : gmap Z Z) :
  handoff_stored t f a start size guard h !! (t + tinfo.start_routine)
    = Some f /\
  handoff_stored t f a start size guard h !! (t + tinfo.start_routine_arg)
    = Some a /\
  handoff_stored t f a start size guard h !! (t + tinfo.unsafe_stack_start)
    = Some start /\
  handoff_stored t f a start size guard h !! (t + tinfo.unsafe_stack_size)
    = Some size /\
  handoff_stored t f a start size guard h !! (t + tinfo.unsafe_stack_guard)
    = Some guard.
Proof.
  unfold handoff_stored, tinfo.start_routine, tinfo.start_routine_arg,
    tinfo.unsafe_stack_start, tinfo.unsafe_stack_size,
    tinfo.unsafe_stack_guard.
  repeat split;
    repeat (rewrite lookup_insert_ne by lia); apply lookup_insert_eq.
Qed.

(** The trampoline of a thread whose creation went through. *)
Lemma thread_start_after_create m size guard f a s :
  in_word size -> in_word guard ->
  tinfo.sizeof <= size -> 0 <= m -> m + guard + size < word_modulus ->
  m + guard + guard < word_modulus ->
  (m + guard + size) mod 16 = 0 ->
  calls_user_code (m + guard + size - tinfo.sizeof)
    (spawned (after_create m size guard f a s)) f a
    (at_user_entry m size guard (after_create m size guard f a s)).
Proof.
  intros Hsz Hg Hroom Hm Htop Htop' Hal invoke.
  destruct (handoff_lookups (m + guard + size - tinfo.sizeof) f a
              (m + guard) size guard (heap s)) as (L1 & L2 & L3 & L4 & L5).
  unfold thread_start, tinfo.field. unwrap.
  repeat (erewrite bind_returns;
          [| apply load_ok; cbn [vm_log spawned after_create];
             apply region_word_accessible;
             unfold in_word, tinfo.sizeof, tinfo.start_routine,
               tinfo.start_routine_arg, tinfo.unsafe_stack_start,
               tinfo.unsafe_stack_size, tinfo.unsafe_stack_guard,
               word_bytes in *; lia]).
  cbn [heap spawned after_create]. rewrite L1, L2, L3, L4, L5.
  cbn [default from_option id].
  erewrite bind_returns.
  2: { apply unsafe_stack_setup_eq; try assumption;
         unfold in_word in *; lia. }
  erewrite bind_returns by reflexivity.
  reflexivity.
Qed.

End Trampoline.

(** * The claims *)

Lemma linux_x86_64_ok : platform_ok (H := linux_x86_64).
Proof. repeat split; vm_compute; first [reflexivity | discriminate]. Qed.

(** C10. The per-thread free operation is idempotent at its interface: it
    unmaps the region only when the thread's region-start field is not
    null, it nulls that field in every case, and so a second call, or a
    call on a thread that never had a region installed, performs no unmap:
    freeing twice is the same as freeing once. *)
Theorem unsafe_stack_free_idempotent (s : state) :
  exists s1,
    unsafe_stack_free s = Returns tt s1 /\
    unsafe_stack_start (tls s1) = 0 /\
    vm_log s1 =
      (if unsafe_stack_start (tls s) =? 0 then vm_log s
       else EvUnmap
              (wrap (unsafe_stack_start (tls s) - unsafe_stack_guard (tls s)))
              (wrap (unsafe_stack_size (tls s) + unsafe_stack_guard (tls s)))
            :: vm_log s) /\
    unsafe_stack_free s1 = Returns tt s1 /\
    (unsafe_stack_free ;; unsafe_stack_free) s = unsafe_stack_free s.
Proof.
  eexists. split; [apply unsafe_stack_free_eq |].
  assert (Hagain : forall s2, unsafe_stack_start (tls s2) = 0 ->
            unsafe_stack_free s2 = Returns tt s2).
  { intros s2 H0. rewrite unsafe_stack_free_eq, H0. cbn. f_equal.
    destruct s2 as [[p st sz g v] log h]. cbn in *. subst st. reflexivity. }
  split; [reflexivity |]. split; [reflexivity |]. split.
  - apply Hagain. reflexivity.
  - erewrite bind_returns by apply unsafe_stack_free_eq.
    rewrite Hagain by reflexivity. symmetry. apply unsafe_stack_free_eq.
Qed.

(** C9, as the code has it. On the terminal cleanup pass (the counter has
    reached the ceiling) of a thread with a region installed, the handler
    unmaps the whole mapping, guard and usable bytes, in one call and
    nulls the region-start field; the region size, the guard size, the
    current-stack-pointer slot, the value of the cleanup key and the
    memory contents stay as they were. *)
Theorem terminal_pass_unmaps_and_nulls_start `{platform}
    (iter : Z) (s : state) :
  PTHREAD_DESTRUCTOR_ITERATIONS <= iter ->
  unsafe_stack_start (tls s) <> 0 ->
  exists s',
    thread_cleanup_handler iter s = Returns tt s' /\
    vm_log s' =
      EvUnmap (wrap (unsafe_stack_start (tls s) - unsafe_stack_guard (tls s)))
              (wrap (unsafe_stack_size (tls s) + unsafe_stack_guard (tls s)))
      :: vm_log s /\
    unsafe_stack_start (tls s') = 0 /\
    unsafe_stack_size (tls s') = unsafe_stack_size (tls s) /\
    unsafe_stack_guard (tls s') = unsafe_stack_guard (tls s) /\
    __safestack_unsafe_stack_ptr (tls s') =
      __safestack_unsafe_stack_ptr (tls s) /\
    thread_cleanup_value (tls s') = thread_cleanup_value (tls s) /\
    heap s' = heap s.
Proof.
  intros Hlast Hst. eexists. split.
  - rewrite handler_last by exact Hlast. apply unsafe_stack_free_eq.
  - cbn. destruct (Z.eqb_spec (unsafe_stack_start (tls s)) 0) as [He | _];
      [contradiction |].
    repeat split.
Qed.

Lemma terminal_pass_unmaps_and_nulls_start_witness :
  exists s',
    thread_cleanup_handler (H := linux_x86_64) 4 armed_state = Returns tt s' /\
    vm_log s' = EvUnmap 139637976727552 1052672 :: vm_log armed_state /\
    unsafe_stack_start (tls s') = 0 /\
    unsafe_stack_size (tls s') = 1048576 /\
    unsafe_stack_guard (tls s') = 4096 /\
    __safestack_unsafe_stack_ptr (tls s') = 139637977780224 /\
    thread_cleanup_value (tls s') = 1 /\
    heap s' = heap armed_state.
Proof.
  apply (terminal_pass_unmaps_and_nulls_start (H := linux_x86_64)
           4 armed_state).
  - cbn. lia.
  - vm_compute. lia.
Defined.

(** C9, as the claim states it, fails: after the terminal pass the region
    size, the guard size and the stack-pointer slot of the thread are
    not cleared. *)
Lemma terminal_pass_keeps_size_guard_and_pointer :
  exists s',
    thread_cleanup_handler (H := linux_x86_64) 4 armed_state = Returns tt s' /\
    unsafe_stack_start (tls s') = 0 /\
    unsafe_stack_size (tls s') = 1048576 /\
    unsafe_stack_guard (tls s') = 4096 /\
    __safestack_unsafe_stack_ptr (tls s') = 139637977780224 /\
    ~ (__safestack_unsafe_stack_ptr (tls s') = 0 /\
       unsafe_stack_start (tls s') = 0 /\
       unsafe_stack_size (tls s') = 0 /\
       unsafe_stack_guard (tls s') = 0).
Proof.
  eexists. split; [vm_compute; reflexivity |].
  cbn. repeat split. intros (Hp & _). discriminate Hp.
Qed.

(** C1. For a thread armed by the trampoline (cleanup key at 1, region
    installed): every invocation of the destructor with a counter below
    [K = PTHREAD_DESTRUCTOR_ITERATIONS] stores the counter plus one and
    unmaps nothing; after any number [n < K] of destructor rounds nothing
    has been released and the counter is at [n + 1]; round [K] releases the
    region, once; thread exit, and any number of rounds from [K] on, leave
    exactly that one release behind. *)
Theorem cleanup_rearms_then_releases_once `{platform} (s : state) :
  platform_ok ->
  thread_cleanup_value (tls s) = 1 ->
  unsafe_stack_start (tls s) <> 0 ->
  let released :=
    {| tls := set_unsafe_stack_start 0 (set_thread_cleanup_value 0 (tls s));
       vm_log :=
         EvUnmap
           (wrap (unsafe_stack_start (tls s) - unsafe_stack_guard (tls s)))
           (wrap (unsafe_stack_size (tls s) + unsafe_stack_guard (tls s)))
         :: vm_log s;
       heap := heap s |} in
  (forall iter s1,
     0 <= iter < PTHREAD_DESTRUCTOR_ITERATIONS ->
     thread_cleanup_handler iter s1 =
     Returns tt (with_tls (set_thread_cleanup_value (iter + 1)) s1)) /\
  (forall n : nat,
     Z.of_nat n < PTHREAD_DESTRUCTOR_ITERATIONS ->
     destructor_rounds n s =
     Returns tt (with_tls (set_thread_cleanup_value (1 + Z.of_nat n)) s)) /\
  (forall n : nat,
     PTHREAD_DESTRUCTOR_ITERATIONS <= Z.of_nat n ->
     destructor_rounds n s = Returns tt released) /\
  thread_exit s = Returns tt released.
Proof.
  intros (_ & _ & Hk & _) Hv Hst released. repeat split.
  - intros iter s1 Hi. apply handler_rearms; lia.
  - intros n Hn. rewrite rounds_rearm by lia. rewrite Hv. reflexivity.
  - intros n Hn. apply rounds_release; assumption.
  - unfold thread_exit. apply rounds_release; try assumption. lia.
Qed.

Lemma cleanup_rearms_then_releases_once_witness :
  thread_cleanup_handler (H := linux_x86_64) 3 armed_state =
    Returns tt (with_tls (set_thread_cleanup_value 4) armed_state) /\
  destructor_rounds (H := linux_x86_64) 3 armed_state =
    Returns tt (with_tls (set_thread_cleanup_value 4) armed_state) /\
  thread_exit (H := linux_x86_64) armed_state =
    Returns tt
      {| tls := {| __safestack_unsafe_stack_ptr := 139637977780224;
                   unsafe_stack_start := 0;
                   unsafe_stack_size := 1048576;
                   unsafe_stack_guard := 4096;
                   thread_cleanup_value := 0 |};
         vm_log := EvUnmap 139637976727552 1052672 :: vm_log armed_state;
         heap := heap armed_state |}.
Proof.
  assert (Hst : unsafe_stack_start (tls armed_state) <> 0).
  { vm_compute. lia. }
  destruct (cleanup_rearms_then_releases_once (H := linux_x86_64)
              armed_state linux_x86_64_ok eq_refl Hst)
    as (Hre & Hn & _ & Hexit).
  split; [apply (Hre 3 armed_state); cbn; lia |].
  split; [apply (Hn 3%nat); cbn; lia |].
  exact Hexit.
Defined.



(** C3. [unsafe_stack_alloc size guard] aborts when [size + guard] wraps
    or when the mapping cannot be made. Otherwise it maps one range of
    [size + guard] bytes at the start [m] the kernel chose, makes the first
    [guard] bytes of it inaccessible and leaves the [size] bytes behind
    them readable and writable, and returns [m + guard]. With a size of
    [1 << 20] and a guard of 4096 a thread creation maps
    [(1 << 20) + 4096] bytes and the created thread enters the code of the
    application with the stack pointer [m + 4096 + (1 << 20)]. *)
Theorem unsafe_stack_alloc_contract `{platform}
    (kernel : option Z) (size guard : Z) (s : state) :
  in_word size -> in_word guard ->
  (word_modulus <= size + guard ->
   unsafe_stack_alloc kernel size guard s = Die) /\
  (kernel = None -> unsafe_stack_alloc kernel size guard s = Die) /\
  (forall m,
     kernel = Some m -> size + guard < word_modulus -> in_word (m + guard) ->
     exists s',
       unsafe_stack_alloc kernel size guard s = Returns (m + guard) s' /\
       vm_log s' = EvProtNone m guard :: EvMmap m (size + guard) :: vm_log s /\
       tls s' = tls s /\ heap s' = heap s /\
       (forall a, m <= a < m + guard -> perm_at (vm_log s') a = NoAccess) /\
       (forall a, m + guard <= a < m + guard + size ->
                  perm_at (vm_log s') a = ReadWrite)) /\
  (forall invoke tmpattr m thread f a,
     platform_ok -> 4096 mod PAGE_SIZE = 0 ->
     0 <= m -> m mod PAGE_SIZE = 0 ->
     m + 4096 + Z.shiftl 1 20 < word_modulus ->
     exists req s1 su,
       pthread_create invoke tmpattr (Some m) thread
         (Some {| stacksize := Z.shiftl 1 20; guardsize := 4096 |}) f a s
       = Returns req s1 /\
       vm_log s1 =
         EvProtNone m 4096 :: EvMmap m (Z.shiftl 1 20 + 4096) :: vm_log s /\
       calls_user_code (spawn_arg req) (spawned s1) f a su /\
       __safestack_unsafe_stack_ptr (tls su) = m + 4096 + Z.shiftl 1 20).
Proof.
  intros Hsz Hg. split; [| split; [| split]].
  - apply unsafe_stack_alloc_overflow; assumption.
  - intros ->. apply unsafe_stack_alloc_refused.
  - intros m -> Hov Hm. eexists. split.
    + apply unsafe_stack_alloc_eq; assumption.
    + cbn [vm_log tls heap with_event]. repeat split.
      * intros a Ha. apply perm_at_guard. exact Ha.
      * intros a Ha. apply perm_at_usable; unfold in_word in *; lia.
  - intros invoke tmpattr m thread f a Hok Hpg Hm Hma Htop.
    change (Z.shiftl 1 20) with 1048576 in *.
    rewrite word_modulus_eq in Htop.
    pose proof (pthread_create_eq invoke tmpattr m thread
                  (Some {| stacksize := 1048576; guardsize := 4096 |})
                  f a s Hok) as Hc.
    cbn [effective_attr stacksize guardsize] in Hc.
    eexists _, _, _. split; [| split; [| split]].
    + apply Hc; try assumption;
        unfold in_word, tinfo.sizeof; rewrite ?word_modulus_eq;
        try lia; reflexivity.
    + reflexivity.
    + apply thread_start_after_create;
        unfold in_word, tinfo.sizeof; rewrite ?word_modulus_eq; try lia.
      apply page_multiple_of_16 in Hma; [| exact Hok].
      rewrite <- Z.add_assoc, Z.add_mod, Hma by lia. reflexivity.
    + reflexivity.
Qed.

Lemma unsafe_stack_alloc_contract_witness :
  unsafe_stack_alloc (Some sample_mapping) 18446744073709551615 4096
    empty_state = Die /\
  unsafe_stack_alloc None 1048576 4096 empty_state = Die /\
  (exists s',
     unsafe_stack_alloc (Some sample_mapping) 1048576 4096 empty_state
     = Returns (sample_mapping + 4096) s' /\
     vm_log s' = [EvProtNone sample_mapping 4096;
                  EvMmap sample_mapping (1048576 + 4096)] /\
     perm_at (vm_log s') (sample_mapping + 4095) = NoAccess /\
     perm_at (vm_log s') (sample_mapping + 4096) = ReadWrite) /\
  (exists req s1 su,
     pthread_create (H := linux_x86_64) sample_invoke glibc_default_attr
       (Some sample_mapping) 0 (Some one_mib_attr) 111 222 empty_state
     = Returns req s1 /\
     calls_user_code (H := linux_x86_64) (spawn_arg req) (spawned s1)
       111 222 su /\
     __safestack_unsafe_stack_ptr (tls su) = 139637977780224).
Proof.
  destruct (unsafe_stack_alloc_contract (H := linux_x86_64)
              (Some sample_mapping) 18446744073709551615 4096 empty_state
              (in_word_by_eval 18446744073709551615 eq_refl)
              (in_word_by_eval 4096 eq_refl)) as (Hov & _).
  destruct (unsafe_stack_alloc_contract (H := linux_x86_64)
              None 1048576 4096 empty_state
              (in_word_by_eval 1048576 eq_refl)
              (in_word_by_eval 4096 eq_refl)) as (_ & Hnone & _).
  destruct (unsafe_stack_alloc_contract (H := linux_x86_64)
              (Some sample_mapping) 1048576 4096 empty_state
              (in_word_by_eval 1048576 eq_refl)
              (in_word_by_eval 4096 eq_refl)) as (_ & _ & Hmap & Hscen).
  split; [apply Hov; vm_compute; discriminate |].
  split; [apply Hnone; reflexivity |].
  split.
  - destruct (Hmap sample_mapping eq_refl eq_refl
                (in_word_by_eval (sample_mapping + 4096) eq_refl))
      as (s' & Hr & Hlog & _ & _ & Hguard & Huse).
    exists s'. split; [exact Hr |]. split; [exact Hlog |].
    split; [apply Hguard | apply Huse]; unfold sample_mapping; lia.
  - destruct (Hscen sample_invoke glibc_default_attr sample_mapping 0 111 222
                linux_x86_64_ok eq_refl) as (req & s1 & su & Hc & _ & Hu & Hp).
    + vm_compute. discriminate.
    + reflexivity.
    + reflexivity.
    + exists req, s1, su. split; [exact Hc |]. split; [exact Hu | exact Hp].
Defined.

(** C4. For an intercepted thread creation with entry function [f] and
    argument [a] that goes through, the creating thread's own
    thread-locals are untouched, [f] and [a] sit in the first two fields of
    the handoff record the new thread is started on, and the trampoline of
    the new thread installs the handed-off region, arms the cleanup key
    and then calls [f] on [a]: its outcome is the outcome of that one call,
    whatever the code behind [f] is. *)
Theorem trampoline_runs_entry_once `{platform}
    (invoke : Z -> Z -> run Z) (tmpattr : pthread_attr_t) (m thread : Z)
    (attr : option pthread_attr_t) (f a size guard : Z) (s : state) :
  platform_ok ->
  effective_attr attr tmpattr = {| stacksize := size; guardsize := guard |} ->
  in_word size -> in_word guard ->
  size mod 16 = 0 -> guard mod PAGE_SIZE = 0 -> tinfo.sizeof <= size ->
  0 <= m -> m mod PAGE_SIZE = 0 ->
  m + guard + size < word_modulus -> m + guard + guard < word_modulus ->
  exists req s1,
    pthread_create invoke tmpattr (Some m) thread attr f a s
    = Returns req s1 /\
    tls s1 = tls s /\
    spawn_arg req = m + guard + size - tinfo.sizeof /\
    heap s1 !! (spawn_arg req + tinfo.start_routine) = Some f /\
    heap s1 !! (spawn_arg req + tinfo.start_routine_arg) = Some a /\
    spawn_entry req (spawn_arg req) (spawned s1)
    = invoke f a (at_user_entry m size guard s1) /\
    calls_user_code (spawn_arg req) (spawned s1) f a
      (at_user_entry m size guard s1).
Proof.
  intros Hok Heff Hsz Hg Hal Hpg Hroom Hm Hma Htop Htop'.
  pose proof (pthread_create_eq invoke tmpattr m thread attr f a s Hok) as Hc.
  rewrite Heff in Hc. cbn [stacksize guardsize] in Hc.
  specialize (Hc Hsz Hg Hal Hpg Hroom Hm Htop).
  assert (Hcall : calls_user_code (m + guard + size - tinfo.sizeof)
                    (spawned (after_create m size guard f a s)) f a
                    (at_user_entry m size guard
                       (after_create m size guard f a s))).
  { apply thread_start_after_create; try assumption.
    apply page_multiple_of_16 in Hma, Hpg; try exact Hok.
    rewrite Z.add_mod, (Z.add_mod m guard), Hma, Hpg, Hal by lia.
    reflexivity. }
  destruct (handoff_lookups (m + guard + size - tinfo.sizeof) f a
              (m + guard) size guard (heap s)) as (L1 & L2 & _).
  eexists _, _. split; [exact Hc |].
  cbn [spawn_arg spawn_entry].
  split; [reflexivity |]. split; [reflexivity |].
  split; [exact L1 |]. split; [exact L2 |].
  split; [apply Hcall | exact Hcall].
Qed.

Lemma trampoline_runs_entry_once_witness :
  exists req s1,
    pthread_create (H := linux_x86_64) sample_invoke glibc_default_attr
      (Some sample_mapping) 0 (Some one_mib_attr) 111 222 empty_state
    = Returns req s1 /\
    spawn_arg req = sample_mapping + 4096 + 1048576 - tinfo.sizeof /\
    heap s1 !! (spawn_arg req + tinfo.start_routine) = Some 111 /\
    heap s1 !! (spawn_arg req + tinfo.start_routine_arg) = Some 222 /\
    spawn_entry req (spawn_arg req) (spawned s1)
    = Returns 333 (at_user_entry sample_mapping 1048576 4096 s1).
Proof.
  destruct (trampoline_runs_entry_once (H := linux_x86_64)
              sample_invoke glibc_default_attr sample_mapping 0
              (Some one_mib_attr) 111 222 1048576 4096 empty_state
              linux_x86_64_ok eq_refl
              (in_word_by_eval 1048576 eq_refl)
              (in_word_by_eval 4096 eq_refl)
              eq_refl eq_refl)
    as (req & s1 & Hc & _ & Harg & Hf & Ha & Hrun & _).
  - unfold tinfo.sizeof. lia.
  - unfold sample_mapping. lia.
  - reflexivity.
  - unfold sample_mapping. rewrite word_modulus_eq. lia.
  - unfold sample_mapping. rewrite word_modulus_eq. lia.
  - exists req, s1. split; [exact Hc |]. split; [exact Harg |].
    split; [exact Hf |]. split; [exact Ha |]. exact Hrun.
Defined.

(** C5. Whichever attributes the sizes come from, the caller's or the
    defaults of the platform, the interceptor aborts the process when the
    size is 0, or no multiple of 16, or the guard no multiple of the page
    size; it returns nothing to its caller in these cases. *)
Theorem invalid_sizes_abort `{platform}
    (invoke : Z -> Z -> run Z) (tmpattr : pthread_attr_t) (kernel : option Z)
    (thread : Z) (attr : option pthread_attr_t) (f a : Z) (s : state) :
  platform_ok ->
  stacksize (effective_attr attr tmpattr) = 0 \/
  stacksize (effective_attr attr tmpattr) mod 16 <> 0 \/
  guardsize (effective_attr attr tmpattr) mod PAGE_SIZE <> 0 ->
  pthread_create invoke tmpattr kernel thread attr f a s = Die.
Proof.
  intros Hok Hbad. unfold pthread_create.
  replace (match attr with Some a0 => stacksize a0 | None => stacksize tmpattr end)
    with (stacksize (effective_attr attr tmpattr)) by (destruct attr; reflexivity).
  replace (match attr with Some a0 => guardsize a0 | None => guardsize tmpattr end)
    with (guardsize (effective_attr attr tmpattr)) by (destruct attr; reflexivity).
  unfold bind at 1 2 3. unfold CHECK_NE, CHECK_EQ, CHECK.
  rewrite land_stack_align, page_mask_mod by exact Hok.
  destruct (Z.eqb_spec (stacksize (effective_attr attr tmpattr)) 0)
    as [H0 | H0]; [reflexivity |]. cbn [negb].
  destruct (Z.eqb_spec (stacksize (effective_attr attr tmpattr) mod 16) 0)
    as [H1 | H1]; [| reflexivity].
  destruct (Z.eqb_spec (guardsize (effective_attr attr tmpattr) mod PAGE_SIZE) 0)
    as [H2 | H2]; [| reflexivity].
  destruct Hbad as [Hb | [Hb | Hb]]; contradiction.
Qed.

Lemma invalid_sizes_abort_witness :
  pthread_create (H := linux_x86_64) sample_invoke glibc_default_attr
    (Some sample_mapping) 0
    (Some {| stacksize := 0; guardsize := 4096 |}) 111 222 empty_state = Die /\
  pthread_create (H := linux_x86_64) sample_invoke glibc_default_attr
    (Some sample_mapping) 0
    (Some {| stacksize := 1048584; guardsize := 4096 |}) 111 222 empty_state
  = Die /\
  pthread_create (H := linux_x86_64) sample_invoke
    {| stacksize := 8388608; guardsize := 512 |}
    (Some sample_mapping) 0 None 111 222 empty_state = Die.
Proof.
  split; [| split];
    apply (invalid_sizes_abort (H := linux_x86_64)); try exact linux_x86_64_ok.
  - left. reflexivity.
  - right. left. vm_compute. discriminate.
  - right. right. vm_compute. discriminate.
Defined.

(** C6, as the code has it. The interceptor has no check of the size
    against the size of the handoff record. When the validated size is
    smaller than the record, no integrity check fails: the region is
    allocated and the first field of the record is stored at
    [base + size - sizeof (struct tinfo)], below the usable bytes. With a
    guard at least as large as the shortfall that address is in the guard
    and the store is a memory fault. *)
Theorem undersized_stack_is_not_checked `{platform}
    (invoke : Z -> Z -> run Z) (tmpattr : pthread_attr_t) (m thread : Z)
    (attr : option pthread_attr_t) (f a size guard : Z) (s : state) :
  platform_ok ->
  effective_attr attr tmpattr = {| stacksize := size; guardsize := guard |} ->
  in_word size -> in_word guard ->
  size <> 0 -> size mod 16 = 0 -> guard mod PAGE_SIZE = 0 ->
  size < tinfo.sizeof ->
  0 <= m -> m + guard + size < word_modulus ->
  pthread_create invoke tmpattr (Some m) thread attr f a s <> Die /\
  (tinfo.sizeof - size <= guard ->
   m <= m + guard + size - tinfo.sizeof < m + guard /\
   pthread_create invoke tmpattr (Some m) thread attr f a s = Segv).
Proof.
  intros Hok Heff Hsz Hg Hnz Hal Hpg Hsmall Hm Htop.
  rewrite pthread_create_checks_pass; rewrite ?Heff; try assumption.
  cbn [stacksize guardsize]. cbv zeta.
  erewrite bind_returns.
  2: { apply unsafe_stack_alloc_eq; unfold in_word in *; lia. }
  split.
  - unfold bind, store, ret.
    repeat match goal with
           | |- context [if ?b then _ else _] => destruct b
           end; discriminate.
  - intros Hguard. split; [unfold tinfo.sizeof in *; lia |].
    unfold tinfo.field. unwrap.
    apply bind_segv. unfold store.
    rewrite word_accessible_first; [reflexivity |].
    cbn [vm_log with_event]. rewrite perm_at_guard; [discriminate |].
    unfold tinfo.sizeof, tinfo.start_routine in *. lia.
Qed.

Lemma undersized_stack_is_not_checked_witness :
  pthread_create (H := linux_x86_64) sample_invoke glibc_default_attr
    (Some sample_mapping) 0 (Some tiny_attr) 111 222 empty_state <> Die /\
  sample_mapping <= sample_mapping + 4096 + 16 - tinfo.sizeof
    < sample_mapping + 4096 /\
  pthread_create (H := linux_x86_64) sample_invoke glibc_default_attr
    (Some sample_mapping) 0 (Some tiny_attr) 111 222 empty_state = Segv.
Proof.
  destruct (undersized_stack_is_not_checked (H := linux_x86_64)
              sample_invoke glibc_default_attr sample_mapping 0
              (Some tiny_attr) 111 222 16 4096 empty_state
              linux_x86_64_ok eq_refl
              (in_word_by_eval 16 eq_refl)
              (in_word_by_eval 4096 eq_refl))
    as (Hnd & Hsegv).
  - lia.
  - reflexivity.
  - reflexivity.
  - unfold tinfo.sizeof. lia.
  - unfold sample_mapping. lia.
  - unfold sample_mapping. rewrite word_modulus_eq. lia.
  - split; [exact Hnd |]. apply Hsegv. unfold tinfo.sizeof. lia.
Defined.

(** C6, as the claim states it, fails: a stack size of 16 passes the
    three checks, is smaller than the 40 bytes of the handoff record, and
    the interceptor does not stop with an integrity-check failure; it goes
    on to the stores of the record, the first of which faults in the
    guard. *)
Lemma undersized_stack_no_check_failure :
  stacksize tiny_attr < tinfo.sizeof /\
  pthread_create (H := linux_x86_64) sample_invoke glibc_default_attr
    (Some sample_mapping) 0 (Some tiny_attr) 111 222 empty_state = Segv /\
  pthread_create (H := linux_x86_64) sample_invoke glibc_default_attr
    (Some sample_mapping) 0 (Some tiny_attr) 111 222 empty_state <> Die.
Proof.
  split; [reflexivity |].
  assert (Hrun : pthread_create (H := linux_x86_64) sample_invoke
                   glibc_default_attr (Some sample_mapping) 0
                   (Some tiny_attr) 111 222 empty_state = Segv)
    by reflexivity.
  split; [exact Hrun |]. rewrite Hrun. discriminate.
Qed.

Section Initializer.
Context `{platform}.

Lemma __safestack_init_unfold rc rlim_cur kernel s size :
  (rc = 0 /\ rlim_cur <> RLIM_INFINITY /\ size = rlim_cur) \/
  ((rc <> 0 \/ rlim_cur = RLIM_INFINITY) /\
   size = kDefaultUnsafeStackSize) ->
  __safestack_init rc rlim_cur kernel s =
  (let* addr := unsafe_stack_alloc kernel size 4096 in
   unsafe_stack_setup addr size 4096) s.
Proof.
  intros Hsize. unfold __safestack_init.
  assert (Hpick : (if (rc =? 0) && negb (rlim_cur =? RLIM_INFINITY)
                   then rlim_cur else kDefaultUnsafeStackSize) = size).
  { destruct (Z.eqb_spec rc 0) as [Hrc | Hrc];
      destruct (Z.eqb_spec rlim_cur RLIM_INFINITY) as [Hinf | Hinf];
      cbn [andb negb];
      destruct Hsize as [(H1 & H2 & ->) | ([H1 | H1] & ->)];
      try reflexivity; contradiction. }
  rewrite Hpick.
  unfold bind, INTERCEPT_FUNCTION_pthread_create, pthread_key_create, ret.
  destruct (unsafe_stack_alloc kernel size 4096 s) as [addr s1 | |];
    [| reflexivity ..].
  destruct (unsafe_stack_setup addr size 4096 s1) as [[] s2 | |];
    reflexivity.
Qed.

Lemma unsafe_stack_alloc_mapped m size guard s :
  in_word size -> in_word guard -> size + guard < word_modulus ->
  unsafe_stack_alloc (Some m) size guard s =
  Returns (wrap (m + guard))
    (with_event (EvProtNone m guard) (with_event (EvMmap m (size + guard)) s)).
Proof.
  intros Hs Hg Hov. unfold unsafe_stack_alloc, CHECK_GE.
  erewrite bind_returns.
  2: { apply CHECK_true. rewrite wrap_add_overflow by assumption.
       apply Z.ltb_lt. exact Hov. }
  unfold bind, MmapOrDie, MprotectNoAccess, ret.
  rewrite (wrap_small (size + guard)) by (unfold in_word in *; lia).
  reflexivity.
Qed.

End Initializer.

(** C7, as the code has it. The process-wide initializer sizes the main
    thread's region by the stack-size resource limit when the query
    succeeds and the limit is not [RLIM_INFINITY], and by the default
    constant [0x2800000] otherwise, always with a guard of 4096. It
    allocates and installs a region of that usable size and that guard
    exactly when the size plus 4096 does not wrap around, the mapping is
    made, and, with [start] the byte behind the guard, neither
    [start + size] nor [start + 4096] wraps around and [start + size] is a
    multiple of 16. In every other case, a limit that is no multiple of 16
    on an aligned mapping among them, the process aborts and no region is
    installed. *)
Theorem main_thread_region_sized_or_abort `{platform}
    (rc rlim_cur : Z) (kernel : option Z) (s : state) (size : Z) :
  in_word rlim_cur ->
  (rc = 0 /\ rlim_cur <> RLIM_INFINITY /\ size = rlim_cur) \/
  ((rc <> 0 \/ rlim_cur = RLIM_INFINITY) /\ size = 0x2800000) ->
  __safestack_init rc rlim_cur kernel s =
  match kernel with
  | None => Die
  | Some m =>
      let start := wrap (m + 4096) in
      if (size + 4096 <? word_modulus)
         && (start + size <? word_modulus)
         && (start + 4096 <? word_modulus)
         && ((start + size) mod 16 =? 0)
      then Returns tt
             {| tls := set_stack (start + size) start size 4096 (tls s);
                vm_log :=
                  EvProtNone m 4096 :: EvMmap m (size + 4096) :: vm_log s;
                heap := heap s |}
      else Die
  end.
Proof.
  intros Hlim Hsize.
  assert (Hsz : in_word size).
  { destruct Hsize as [(_ & _ & ->) | (_ & ->)]; [exact Hlim |].
    apply in_word_by_eval. reflexivity. }
  assert (Hg : in_word 4096) by (apply in_word_by_eval; reflexivity).
  rewrite (__safestack_init_unfold rc rlim_cur kernel s size)
    by (exact Hsize).
  destruct kernel as [m |].
  2: { apply bind_die, unsafe_stack_alloc_refused. }
  cbv zeta.
  pose proof (wrap_in_word (m + 4096)) as Hst.
  destruct (Z.ltb_spec (size + 4096) word_modulus) as [Hov | Hov].
  2: { apply bind_die, unsafe_stack_alloc_overflow; assumption. }
  erewrite bind_returns
    by (apply unsafe_stack_alloc_mapped; assumption).
  destruct (Z.ltb_spec (wrap (m + 4096) + size) word_modulus) as [H1 | H1].
  2: { apply unsafe_stack_setup_wraps; auto. }
  destruct (Z.ltb_spec (wrap (m + 4096) + 4096) word_modulus) as [H2 | H2].
  2: { apply unsafe_stack_setup_wraps; auto. }
  destruct (Z.eqb_spec ((wrap (m + 4096) + size) mod 16) 0) as [H3 | H3];
    cbn [andb].
  - rewrite unsafe_stack_setup_eq by assumption. reflexivity.
  - apply unsafe_stack_setup_misaligned. exact H3.
Qed.

Lemma main_thread_region_sized_or_abort_witness :
  __safestack_init (H := linux_x86_64) 0 8388608 (Some sample_mapping)
    empty_state =
  Returns tt
    {| tls := set_stack (sample_mapping + 4096 + 8388608)
                (sample_mapping + 4096) 8388608 4096 fresh_thread_locals;
       vm_log := [EvProtNone sample_mapping 4096;
                  EvMmap sample_mapping (8388608 + 4096)];
       heap := ∅ |} /\
  __safestack_init (H := linux_x86_64) 0 18446744073709551615
    (Some sample_mapping) empty_state =
  Returns tt
    {| tls := set_stack (sample_mapping + 4096 + 0x2800000)
                (sample_mapping + 4096) 0x2800000 4096 fresh_thread_locals;
       vm_log := [EvProtNone sample_mapping 4096;
                  EvMmap sample_mapping (0x2800000 + 4096)];
       heap := ∅ |} /\
  __safestack_init (H := linux_x86_64) 1 8388608 (Some sample_mapping)
    empty_state =
  Returns tt
    {| tls := set_stack (sample_mapping + 4096 + 0x2800000)
                (sample_mapping + 4096) 0x2800000 4096 fresh_thread_locals;
       vm_log := [EvProtNone sample_mapping 4096;
                  EvMmap sample_mapping (0x2800000 + 4096)];
       heap := ∅ |} /\
  __safestack_init (H := linux_x86_64) 0 8388609 (Some sample_mapping)
    empty_state = Die /\
  __safestack_init (H := linux_x86_64) 0 8388608 None empty_state = Die.
Proof.
  split; [| split; [| split; [| split]]].
  - apply (main_thread_region_sized_or_abort (H := linux_x86_64) 0 8388608
             (Some sample_mapping) empty_state 8388608
             (in_word_by_eval 8388608 eq_refl)).
    left. split; [reflexivity |]. split; [| reflexivity].
    vm_compute. discriminate.
  - apply (main_thread_region_sized_or_abort (H := linux_x86_64) 0
             18446744073709551615 (Some sample_mapping) empty_state
             0x2800000 (in_word_by_eval 18446744073709551615 eq_refl)).
    right. split; [right |]; reflexivity.
  - apply (main_thread_region_sized_or_abort (H := linux_x86_64) 1 8388608
             (Some sample_mapping) empty_state 0x2800000
             (in_word_by_eval 8388608 eq_refl)).
    right. split; [left; lia | reflexivity].
  - apply (main_thread_region_sized_or_abort (H := linux_x86_64) 0 8388609
             (Some sample_mapping) empty_state 8388609
             (in_word_by_eval 8388609 eq_refl)).
    left. split; [reflexivity |]. split; [| reflexivity].
    vm_compute. discriminate.
  - apply (main_thread_region_sized_or_abort (H := linux_x86_64) 0 8388608
             None empty_state 8388608 (in_word_by_eval 8388608 eq_refl)).
    left. split; [reflexivity |]. split; [| reflexivity].
    vm_compute. discriminate.
Defined.

(** C7, as the claim states it, fails: with the query succeeding and the
    finite limit 8388609, which is no multiple of 16, the initializer
    installs no region of that usable size; the process aborts at the
    alignment check of the install step. *)
Lemma odd_limit_installs_no_region :
  8388609 <> RLIM_INFINITY (platform := linux_x86_64) /\
  __safestack_init (H := linux_x86_64) 0 8388609 (Some sample_mapping)
    empty_state = Die /\
  ~ (exists s',
       __safestack_init (H := linux_x86_64) 0 8388609 (Some sample_mapping)
         empty_state = Returns tt s' /\
       unsafe_stack_size (tls s') = 8388609).
Proof.
  assert (Hrun : __safestack_init (H := linux_x86_64) 0 8388609
                   (Some sample_mapping) empty_state = Die)
    by reflexivity.
  split; [vm_compute; discriminate |]. split; [exact Hrun |].
  intros (s' & Hret & _). rewrite Hrun in Hret. discriminate Hret.
Qed.

(** ** What the main thread leaves untouched *)

Section MainThreadFrame.
Context `{platform}.
Variable invoke : Z -> Z -> run Z.

Lemma no_new_unmap_refl log : no_new_unmap log log.
Proof. intros addr len Hin. exact Hin. Qed.

Lemma no_new_unmap_trans l1 l2 l3 :
  no_new_unmap l1 l2 -> no_new_unmap l2 l3 -> no_new_unmap l1 l3.
Proof. intros H12 H23 addr len Hin. apply H12, H23, Hin. Qed.

Lemma no_new_unmap_region log m g len :
  no_new_unmap log (EvProtNone m g :: EvMmap m len :: log).
Proof.
  intros addr l Hin. cbn [In] in Hin.
  destruct Hin as [Hd | [Hd | Hin]]; [discriminate Hd .. | exact Hin].
Qed.

Lemma store_inv a v s u s' :
  store a v s = Returns u s' -> s' = with_word a v s.
Proof.
  unfold store. destruct (word_accessible (vm_log s) a); intros Hr;
    [| discriminate]. injection Hr as _ <-. reflexivity.
Qed.

Lemma unsafe_stack_alloc_frame kernel size guard s addr s' :
  unsafe_stack_alloc kernel size guard s = Returns addr s' ->
  tls s' = tls s /\ no_new_unmap (vm_log s) (vm_log s').
Proof.
  unfold unsafe_stack_alloc, CHECK_GE. intros Hr.
  apply bind_inv in Hr as (u & s1 & Hc & Hr).
  apply CHECK_inv in Hc as [_ ->].
  apply bind_inv in Hr as (m & s2 & Hmap & Hr).
  unfold MmapOrDie in Hmap. destruct kernel as [m' |]; [| discriminate].
  injection Hmap as <- <-.
  unfold bind, MprotectNoAccess, ret in Hr. injection Hr as _ <-.
  split; [reflexivity | apply no_new_unmap_region].
Qed.

Lemma pthread_create_frame tmpattr kernel thread attr f a s req s' :
  pthread_create invoke tmpattr kernel thread attr f a s = Returns req s' ->
  tls s' = tls s /\ no_new_unmap (vm_log s) (vm_log s').
Proof.
  unfold pthread_create, CHECK_NE, CHECK_EQ. intros Hr.
  apply bind_inv in Hr as (u1 & s1 & Hc1 & Hr).
  apply CHECK_inv in Hc1 as [_ ->].
  apply bind_inv in Hr as (u2 & s2 & Hc2 & Hr).
  apply CHECK_inv in Hc2 as [_ ->].
  apply bind_inv in Hr as (u3 & s3 & Hc3 & Hr).
  apply CHECK_inv in Hc3 as [_ ->].
  apply bind_inv in Hr as (addr & s4 & Halloc & Hr).
  apply unsafe_stack_alloc_frame in Halloc as [Htls Hlog].
  apply bind_inv in Hr as (v1 & t1 & Hs1 & Hr). apply store_inv in Hs1.
  apply bind_inv in Hr as (v2 & t2 & Hs2 & Hr). apply store_inv in Hs2.
  apply bind_inv in Hr as (v3 & t3 & Hs3 & Hr). apply store_inv in Hs3.
  apply bind_inv in Hr as (v4 & t4 & Hs4 & Hr). apply store_inv in Hs4.
  apply bind_inv in Hr as (v5 & t5 & Hs5 & Hr). apply store_inv in Hs5.
  injection Hr as _ <-. subst t5 t4 t3 t2 t1. cbn.
  split; assumption.
Qed.

Lemma __safestack_init_frame rc rlim_cur kernel s u s' :
  __safestack_init rc rlim_cur kernel s = Returns u s' ->
  thread_cleanup_value (tls s') = thread_cleanup_value (tls s) /\
  no_new_unmap (vm_log s) (vm_log s').
Proof.
  unfold __safestack_init. intros Hr.
  apply bind_inv in Hr as (addr & s1 & Halloc & Hr).
  apply unsafe_stack_alloc_frame in Halloc as [Htls Hlog].
  apply bind_inv in Hr as (u1 & s2 & Hset & Hr).
  unfold bind, INTERCEPT_FUNCTION_pthread_create, pthread_key_create, ret
    in Hr.
  injection Hr as _ <-.
  pose proof Hset as Hval.
  apply unsafe_stack_setup_ptr in Hval as (_ & _ & _ & Hval).
  assert (Hlog' : vm_log s2 = vm_log s1).
  { unfold unsafe_stack_setup, CHECK_GE, CHECK_EQ in Hset.
    apply bind_inv in Hset as (w1 & r1 & Hc1 & Hset).
    apply CHECK_inv in Hc1 as [_ ->].
    apply bind_inv in Hset as (w2 & r2 & Hc2 & Hset).
    apply CHECK_inv in Hc2 as [_ ->].
    apply bind_inv in Hset as (w3 & r3 & Hc3 & Hset).
    apply CHECK_inv in Hc3 as [_ ->].
    unfold set_tls in Hset. injection Hset as _ <-. reflexivity. }
  rewrite Hval, Htls, Hlog'. split; [reflexivity | exact Hlog].
Qed.

Lemma run_op_frame o s u s' :
  run_op invoke o s = Returns u s' ->
  thread_cleanup_value (tls s') = thread_cleanup_value (tls s) /\
  no_new_unmap (vm_log s) (vm_log s').
Proof.
  destruct o as [tmpattr kernel thread attr f a | v]; cbn [run_op];
    intros Hr.
  - apply bind_inv in Hr as (req & s1 & Hc & Hr).
    unfold ret in Hr. injection Hr as _ <-.
    apply pthread_create_frame in Hc as [-> Hlog].
    split; [reflexivity | exact Hlog].
  - unfold set_tls in Hr. injection Hr as _ <-. cbn.
    split; [reflexivity | apply no_new_unmap_refl].
Qed.

Lemma run_ops_frame ops : forall s u s',
  run_ops invoke ops s = Returns u s' ->
  thread_cleanup_value (tls s') = thread_cleanup_value (tls s) /\
  no_new_unmap (vm_log s) (vm_log s').
Proof.
  induction ops as [| o rest IH]; intros s u s' Hr; cbn [run_ops] in Hr.
  - unfold ret in Hr. injection Hr as _ <-.
    split; [reflexivity | apply no_new_unmap_refl].
  - apply bind_inv in Hr as (u1 & s1 & Hop & Hr).
    apply run_op_frame in Hop as [Hv1 Hl1].
    apply IH in Hr as [Hv2 Hl2].
    split; [congruence | eapply no_new_unmap_trans; eassumption].
Qed.

End MainThreadFrame.




(** * Further properties of the runtime *)

(** ** Installing a region: when it goes through *)

(** X1. [unsafe_stack_setup] returns exactly when neither [start + size]
    nor [start + guard] wraps around and [start + size] is a multiple of
    16; then it sets the four stack fields and nothing else. In every
    other case the process aborts. *)
Theorem unsafe_stack_setup_returns_iff (start size guard : Z) (s : state) :
  in_word start -> in_word size -> in_word guard ->
  unsafe_stack_setup start size guard s =
  if (start + size <? word_modulus) && (start + guard <? word_modulus)
     && ((start + size) mod 16 =? 0)
  then Returns tt (with_tls (set_stack (start + size) start size guard) s)
  else Die.
Proof.
  intros Hst Hsz Hg.
  destruct (Z.ltb_spec (start + size) word_modulus) as [H1 | H1].
  2: { apply unsafe_stack_setup_wraps; auto. }
  destruct (Z.ltb_spec (start + guard) word_modulus) as [H2 | H2].
  2: { apply unsafe_stack_setup_wraps; auto. }
  destruct (Z.eqb_spec ((start + size) mod 16) 0) as [H3 | H3]; cbn [andb].
  - apply unsafe_stack_setup_eq; assumption.
  - apply unsafe_stack_setup_misaligned. exact H3.
Qed.

Lemma unsafe_stack_setup_returns_iff_witness :
  unsafe_stack_setup 139637976731648 1048576 4096 empty_state =
    Returns tt
      (with_tls (set_stack 139637977780224 139637976731648 1048576 4096)
         empty_state) /\
  unsafe_stack_setup 18446744073709551600 1048576 4096 empty_state = Die /\
  unsafe_stack_setup 18446744073709547520 16 8192 empty_state = Die.
Proof.
  split; [| split].
  - apply (unsafe_stack_setup_returns_iff 139637976731648 1048576 4096
             empty_state (in_word_by_eval 139637976731648 eq_refl)
             (in_word_by_eval 1048576 eq_refl)
             (in_word_by_eval 4096 eq_refl)).
  - apply (unsafe_stack_setup_returns_iff 18446744073709551600 1048576 4096
             empty_state (in_word_by_eval 18446744073709551600 eq_refl)
             (in_word_by_eval 1048576 eq_refl)
             (in_word_by_eval 4096 eq_refl)).
  - apply (unsafe_stack_setup_returns_iff 18446744073709547520 16 8192
             empty_state (in_word_by_eval 18446744073709547520 eq_refl)
             (in_word_by_eval 16 eq_refl)
             (in_word_by_eval 8192 eq_refl)).
Defined.

(** ** Allocation, installation and release together *)

Lemma perm_at_unmapped log m len a :
  m <= a < m + len -> perm_at (EvUnmap m len :: log) a = Unmapped.
Proof.
  intros Ha. cbn [perm_at]. unfold in_range.
  destruct (Z.leb_spec m a); [| lia].
  destruct (Z.ltb_spec a (m + len)); [reflexivity | lia].
Qed.

Lemma perm_at_region_outside log m size guard a :
  0 <= guard -> 0 <= size -> a < m \/ m + (size + guard) <= a ->
  perm_at (EvProtNone m guard :: EvMmap m (size + guard) :: log) a
  = perm_at log a.
Proof.
  intros Hg Hs Ha. cbn [perm_at]. unfold in_range.
  destruct (Z.leb_spec m a); cbn [andb]; [| reflexivity].
  destruct (Z.ltb_spec a (m + guard)); [lia |].
  destruct (Z.ltb_spec a (m + (size + guard))); [lia | reflexivity].
Qed.

Lemma perm_at_unmap_outside log m len a :
  a < m \/ m + len <= a ->
  perm_at (EvUnmap m len :: log) a = perm_at log a.
Proof.
  intros Ha. cbn [perm_at]. unfold in_range.
  destruct (Z.leb_spec m a); cbn [andb]; [| reflexivity].
  destruct (Z.ltb_spec a (m + len)); [lia | reflexivity].
Qed.

(** X2. A region obtained from [unsafe_stack_alloc], installed by
    [unsafe_stack_setup] and released by [unsafe_stack_free] is unmapped
    as it was mapped, from the start of the guard over guard and usable
    bytes: afterwards every byte of the mapping is unmapped, every byte
    outside it is as before, and the region-start field is null. *)
Theorem alloc_install_free_round_trip (m size guard : Z) (s : state) :
  in_word size -> in_word guard -> 0 < m ->
  m + guard + size < word_modulus -> m + guard + guard < word_modulus ->
  (m + guard + size) mod 16 = 0 ->
  exists s',
    (let* addr := unsafe_stack_alloc (Some m) size guard in
     unsafe_stack_setup addr size guard ;;
     unsafe_stack_free) s = Returns tt s' /\
    vm_log s' =
      EvUnmap m (size + guard)
      :: EvProtNone m guard :: EvMmap m (size + guard) :: vm_log s /\
    unsafe_stack_start (tls s') = 0 /\
    heap s' = heap s /\
    (forall a, m <= a < m + (size + guard) ->
               perm_at (vm_log s') a = Unmapped) /\
    (forall a, a < m \/ m + (size + guard) <= a ->
               perm_at (vm_log s') a = perm_at (vm_log s) a).
Proof.
  intros Hsz Hg Hm Htop Htop' Hal.
  eexists. split.
  - erewrite bind_returns.
    2: { apply unsafe_stack_alloc_eq; unfold in_word in *; lia. }
    erewrite bind_returns.
    2: { apply unsafe_stack_setup_eq; unfold in_word in *; lia. }
    rewrite unsafe_stack_free_eq.
    cbn [tls with_tls with_event set_stack unsafe_stack_start
           unsafe_stack_size unsafe_stack_guard vm_log heap].
    destruct (Z.eqb_spec (m + guard) 0) as [H0 | _];
      [unfold in_word in *; lia |].
    replace (m + guard - guard) with m by lia.
    rewrite (wrap_small m), (wrap_small (size + guard))
      by (unfold in_word in *; lia).
    reflexivity.
  - cbn [vm_log tls heap set_unsafe_stack_start unsafe_stack_start].
    split; [reflexivity |]. split; [reflexivity |]. split; [reflexivity |].
    split.
    + intros a Ha. apply perm_at_unmapped. exact Ha.
    + intros a Ha. rewrite perm_at_unmap_outside by exact Ha.
      apply perm_at_region_outside; unfold in_word in *; lia.
Qed.

Lemma alloc_install_free_round_trip_witness :
  exists s',
    (let* addr := unsafe_stack_alloc (Some sample_mapping) 1048576 4096 in
     unsafe_stack_setup addr 1048576 4096 ;;
     unsafe_stack_free) empty_state = Returns tt s' /\
    vm_log s' =
      [EvUnmap sample_mapping (1048576 + 4096);
       EvProtNone sample_mapping 4096;
       EvMmap sample_mapping (1048576 + 4096)] /\
    perm_at (vm_log s') (sample_mapping + 4096) = Unmapped.
Proof.
  destruct (alloc_install_free_round_trip sample_mapping 1048576 4096
              empty_state (in_word_by_eval 1048576 eq_refl)
              (in_word_by_eval 4096 eq_refl))
    as (s' & Hrun & Hlog & _ & _ & Hin & _).
  - unfold sample_mapping. lia.
  - unfold sample_mapping. rewrite word_modulus_eq. lia.
  - unfold sample_mapping. rewrite word_modulus_eq. lia.
  - reflexivity.
  - exists s'. split; [exact Hrun |]. split; [exact Hlog |].
    apply Hin. unfold sample_mapping. lia.
Defined.

(** ** Thread exit from any counter value *)

Section AnyCounter.
Context `{platform}.

Lemma round_releases s :
  PTHREAD_DESTRUCTOR_ITERATIONS <= thread_cleanup_value (tls s) ->
  1 <= thread_cleanup_value (tls s) ->
  unsafe_stack_start (tls s) <> 0 ->
  destructor_round s =
  Returns tt
    {| tls := set_unsafe_stack_start 0 (set_thread_cleanup_value 0 (tls s));
       vm_log :=
         EvUnmap
           (wrap (unsafe_stack_start (tls s) - unsafe_stack_guard (tls s)))
           (wrap (unsafe_stack_size (tls s) + unsafe_stack_guard (tls s)))
         :: vm_log s;
       heap := heap s |}.
Proof.
  intros Hk Hv Hst.
  rewrite round_calls_handler by lia.
  rewrite handler_last by exact Hk.
  rewrite unsafe_stack_free_eq. cbn.
  destruct (Z.eqb_spec (unsafe_stack_start (tls s)) 0) as [He | _];
    [contradiction | reflexivity].
Qed.

Lemma rounds_release_any n s :
  1 <= PTHREAD_DESTRUCTOR_ITERATIONS < word_modulus ->
  1 <= thread_cleanup_value (tls s) ->
  unsafe_stack_start (tls s) <> 0 ->
  Z.max 1 (PTHREAD_DESTRUCTOR_ITERATIONS - thread_cleanup_value (tls s) + 1)
    <= Z.of_nat n ->
  destructor_rounds n s =
  Returns tt
    {| tls := set_unsafe_stack_start 0 (set_thread_cleanup_value 0 (tls s));
       vm_log :=
         EvUnmap
           (wrap (unsafe_stack_start (tls s) - unsafe_stack_guard (tls s)))
           (wrap (unsafe_stack_size (tls s) + unsafe_stack_guard (tls s)))
         :: vm_log s;
       heap := heap s |}.
Proof.
  intros Hk Hv Hst Hn.
  set (k := Z.to_nat (PTHREAD_DESTRUCTOR_ITERATIONS
                      - thread_cleanup_value (tls s))).
  replace n with (k + (1 + (n - S k)))%nat by lia.
  rewrite rounds_app.
  destruct (Z.le_gt_cases PTHREAD_DESTRUCTOR_ITERATIONS
              (thread_cleanup_value (tls s))) as [Hge | Hlt].
  - replace k with 0%nat by lia. cbn [destructor_rounds].
    erewrite bind_returns by reflexivity.
    rewrite rounds_app. erewrite bind_returns.
    + apply rounds_idle. reflexivity.
    + cbn [destructor_rounds].
      erewrite bind_returns; [reflexivity |].
      apply round_releases; assumption.
  - erewrite bind_returns by (apply rounds_rearm; subst k; lia).
    rewrite rounds_app. erewrite bind_returns.
    + apply rounds_idle. reflexivity.
    + cbn [destructor_rounds].
      erewrite bind_returns; [reflexivity |].
      rewrite round_releases by (cbn; subst k; lia). reflexivity.
Qed.

End AnyCounter.

(** X4. Whatever non-null value a thread holds for the cleanup key, at
    the ceiling, below it or above it, thread exit releases the installed
    region exactly once: rounds that leave the counter at or below the
    ceiling release nothing, the round that finds the counter at or above
    the ceiling releases, and every later round is idle. *)
Theorem thread_exit_releases_for_any_counter `{platform} (s : state) :
  platform_ok ->
  1 <= thread_cleanup_value (tls s) ->
  unsafe_stack_start (tls s) <> 0 ->
  let released :=
    {| tls := set_unsafe_stack_start 0 (set_thread_cleanup_value 0 (tls s));
       vm_log :=
         EvUnmap
           (wrap (unsafe_stack_start (tls s) - unsafe_stack_guard (tls s)))
           (wrap (unsafe_stack_size (tls s) + unsafe_stack_guard (tls s)))
         :: vm_log s;
       heap := heap s |} in
  thread_exit s = Returns tt released /\
  (forall n : nat,
     thread_cleanup_value (tls s) + Z.of_nat n
       <= PTHREAD_DESTRUCTOR_ITERATIONS ->
     destructor_rounds n s =
     Returns tt
       (with_tls
          (set_thread_cleanup_value
             (thread_cleanup_value (tls s) + Z.of_nat n)) s)) /\
  (forall n : nat,
     Z.max 1 (PTHREAD_DESTRUCTOR_ITERATIONS
              - thread_cleanup_value (tls s) + 1) <= Z.of_nat n ->
     destructor_rounds n s = Returns tt released).
Proof.
  intros (_ & _ & Hk & _) Hv Hst released. split; [| split].
  - unfold thread_exit. apply rounds_release_any; try assumption. lia.
  - intros n Hn. apply rounds_rearm; lia.
  - intros n Hn. apply rounds_release_any; assumption.
Qed.

Lemma thread_exit_releases_for_any_counter_witness :
  thread_exit (H := linux_x86_64)
    (with_tls (set_thread_cleanup_value 9) armed_state) =
  Returns tt
    {| tls := {| __safestack_unsafe_stack_ptr := 139637977780224;
                 unsafe_stack_start := 0;
                 unsafe_stack_size := 1048576;
                 unsafe_stack_guard := 4096;
                 thread_cleanup_value := 0 |};
       vm_log := EvUnmap 139637976727552 1052672 :: vm_log armed_state;
       heap := heap armed_state |} /\
  destructor_rounds (H := linux_x86_64) 2
    (with_tls (set_thread_cleanup_value 2) armed_state) =
  Returns tt (with_tls (set_thread_cleanup_value 4) armed_state).
Proof.
  split.
  - destruct (thread_exit_releases_for_any_counter (H := linux_x86_64)
                (with_tls (set_thread_cleanup_value 9) armed_state)
                linux_x86_64_ok) as (Hexit & _).
    + cbn. lia.
    + vm_compute. lia.
    + exact Hexit.
  - destruct (thread_exit_releases_for_any_counter (H := linux_x86_64)
                (with_tls (set_thread_cleanup_value 2) armed_state)
                linux_x86_64_ok) as (_ & Hre & _).
    + cbn. lia.
    + vm_compute. lia.
    + apply (Hre 2%nat). cbn. lia.
Defined.

(** ** The whole life of a created thread *)

(** X3. A thread created through the interceptor, whose application code
    returns [r] and leaves the [static] thread-locals and the cleanup key
    of the runtime alone (it may move the stack pointer, write memory, map
    and unmap pages of its own), ends with the result [r], and its exit
    unmaps the mapping made for it at its creation, guard and usable bytes
    in one piece, on top of whatever the application did: afterwards
    [__get_unsafe_stack_start] gives NULL and every byte of the mapping is
    unmapped. *)
Theorem created_thread_lifecycle `{platform}
    (invoke : Z -> Z -> run Z) (tmpattr : pthread_attr_t) (m thread : Z)
    (attr : option pthread_attr_t) (f a size guard : Z) (s : state)
    (r : Z) (su : state) :
  platform_ok ->
  effective_attr attr tmpattr = {| stacksize := size; guardsize := guard |} ->
  in_word size -> in_word guard ->
  size mod 16 = 0 -> guard mod PAGE_SIZE = 0 -> tinfo.sizeof <= size ->
  0 < m -> m mod PAGE_SIZE = 0 ->
  m + guard + size < word_modulus -> m + guard + guard < word_modulus ->
  invoke f a (at_user_entry m size guard (after_create m size guard f a s))
  = Returns r su ->
  static_locals_kept
    (tls (at_user_entry m size guard (after_create m size guard f a s)))
    (tls su) ->
  exists req s_end,
    pthread_create invoke tmpattr (Some m) thread attr f a s
    = Returns req (after_create m size guard f a s) /\
    run_thread (spawn_entry req) (spawn_arg req)
      (spawned (after_create m size guard f a s)) = Returns r s_end /\
    vm_log s_end = EvUnmap m (size + guard) :: vm_log su /\
    heap s_end = heap su /\
    __get_unsafe_stack_start s_end = Returns 0 s_end /\
    (forall b, m <= b < m + (size + guard) ->
               perm_at (vm_log s_end) b = Unmapped).
Proof.
  intros Hok Heff Hsz Hg Hal Hpg Hroom Hm Hma Htop Htop' Huser Hkept.
  pose proof (pthread_create_eq invoke tmpattr m thread attr f a s Hok) as Hc.
  rewrite Heff in Hc. cbn [stacksize guardsize] in Hc.
  specialize (Hc Hsz Hg Hal Hpg Hroom ltac:(lia) Htop).
  assert (Hcall : calls_user_code (m + guard + size - tinfo.sizeof)
                    (spawned (after_create m size guard f a s)) f a
                    (at_user_entry m size guard
                       (after_create m size guard f a s))).
  { apply thread_start_after_create; try assumption; [lia |].
    apply page_multiple_of_16 in Hma, Hpg; try exact Hok.
    rewrite Z.add_mod, (Z.add_mod m guard), Hma, Hpg, Hal by lia.
    reflexivity. }
  destruct Hkept as (Kst & Ksz & Kg & Kv).
  cbn [tls at_user_entry unsafe_stack_start unsafe_stack_size
         unsafe_stack_guard thread_cleanup_value] in Kst, Ksz, Kg, Kv.
  destruct Hok as (_ & _ & Hk & _).
  assert (Hexit : thread_exit su =
                  Returns tt
                    {| tls := set_unsafe_stack_start 0
                                (set_thread_cleanup_value 0 (tls su));
                       vm_log := EvUnmap m (size + guard) :: vm_log su;
                       heap := heap su |}).
  { unfold thread_exit. rewrite rounds_release; try assumption.
    - rewrite Kst, Ksz, Kg. replace (m + guard - guard) with m by lia.
      rewrite (wrap_small m), (wrap_small (size + guard))
        by (unfold in_word in *; lia).
      reflexivity.
    - rewrite Kst. unfold in_word in *. lia.
    - lia. }
  eexists _, _. split; [exact Hc |].
  cbn [spawn_entry spawn_arg]. split.
  - unfold run_thread. erewrite bind_returns.
    2: { rewrite (Hcall invoke). exact Huser. }
    erewrite bind_returns by exact Hexit. reflexivity.
  - cbn [vm_log heap]. split; [reflexivity |]. split; [reflexivity |].
    split; [reflexivity |].
    intros b Hb. apply perm_at_unmapped. exact Hb.
Qed.

Lemma created_thread_lifecycle_witness :
  exists req s_end,
    pthread_create (H := linux_x86_64) framing_invoke glibc_default_attr
      (Some sample_mapping) 0 (Some one_mib_attr) 111 222 empty_state
    = Returns req
        (after_create sample_mapping 1048576 4096 111 222 empty_state) /\
    run_thread (H := linux_x86_64) (spawn_entry req) (spawn_arg req)
      (spawned (after_create sample_mapping 1048576 4096 111 222 empty_state))
    = Returns 333 s_end /\
    vm_log s_end =
      [EvUnmap sample_mapping (1048576 + 4096);
       EvProtNone sample_mapping 4096;
       EvMmap sample_mapping (1048576 + 4096)] /\
    __get_unsafe_stack_start s_end = Returns 0 s_end.
Proof.
  destruct (created_thread_lifecycle (H := linux_x86_64)
              framing_invoke glibc_default_attr sample_mapping 0
              (Some one_mib_attr) 111 222 1048576 4096 empty_state
              333
              (with_word (sample_mapping + 4096 + 1048576 - 64) 222
                 (at_user_entry sample_mapping 1048576 4096
                    (after_create sample_mapping 1048576 4096 111 222
                       empty_state)))
              linux_x86_64_ok eq_refl
              (in_word_by_eval 1048576 eq_refl)
              (in_word_by_eval 4096 eq_refl)
              eq_refl eq_refl)
    as (req & s_end & Hc & Hrun & Hlog & _ & Hget & _).
  - unfold tinfo.sizeof. lia.
  - unfold sample_mapping. lia.
  - reflexivity.
  - unfold sample_mapping. rewrite word_modulus_eq. lia.
  - unfold sample_mapping. rewrite word_modulus_eq. lia.
  - reflexivity.
  - repeat split.
  - exists req, s_end. split; [exact Hc |]. split; [exact Hrun |].
    split; [exact Hlog | exact Hget].
Defined.

(** ** What the interceptor touches *)

Section InterceptorFrame.
Context `{platform}.
Variable invoke : Z -> Z -> run Z.

Lemma store_inv_accessible a v s u s' :
  store a v s = Returns u s' ->
  word_accessible (vm_log s) a = true /\ s' = with_word a v s.
Proof.
  unfold store. destruct (word_accessible (vm_log s) a); intros Hr;
    [| discriminate]. injection Hr as _ <-. split; reflexivity.
Qed.

Lemma unsafe_stack_alloc_heap kernel size guard s addr s' :
  unsafe_stack_alloc kernel size guard s = Returns addr s' ->
  heap s' = heap s.
Proof.
  unfold unsafe_stack_alloc, CHECK_GE. intros Hr.
  apply bind_inv in Hr as (u & s1 & Hc & Hr).
  apply CHECK_inv in Hc as [_ ->].
  apply bind_inv in Hr as (m & s2 & Hmap & Hr).
  unfold MmapOrDie in Hmap. destruct kernel as [m' |]; [| discriminate].
  injection Hmap as <- <-.
  unfold bind, MprotectNoAccess, ret in Hr. injection Hr as _ <-.
  reflexivity.
Qed.

Lemma pthread_create_inv tmpattr kernel thread attr f a s req s1 :
  pthread_create invoke tmpattr kernel thread attr f a s = Returns req s1 ->
  exists s0 v3 v4 v5,
    heap s0 = heap s /\
    vm_log s1 = vm_log s0 /\
    req = {| spawn_thread := thread;
             spawn_attr := attr;
             spawn_entry := thread_start invoke;
             spawn_arg := spawn_arg req |} /\
    heap s1 =
      <[tinfo.field (spawn_arg req) tinfo.unsafe_stack_guard := v5]>
        (<[tinfo.field (spawn_arg req) tinfo.unsafe_stack_size := v4]>
           (<[tinfo.field (spawn_arg req) tinfo.unsafe_stack_start := v3]>
              (<[tinfo.field (spawn_arg req) tinfo.start_routine_arg := a]>
                 (<[tinfo.field (spawn_arg req) tinfo.start_routine := f]>
                    (heap s0))))) /\
    Forall (fun k => word_accessible (vm_log s0) k = true)
           (record_fields (spawn_arg req)).
Proof.
  unfold pthread_create, CHECK_NE, CHECK_EQ. intros Hr.
  apply bind_inv in Hr as (u1 & s1' & Hc1 & Hr).
  apply CHECK_inv in Hc1 as [_ ->].
  apply bind_inv in Hr as (u2 & s2 & Hc2 & Hr).
  apply CHECK_inv in Hc2 as [_ ->].
  apply bind_inv in Hr as (u3 & s3 & Hc3 & Hr).
  apply CHECK_inv in Hc3 as [_ ->].
  apply bind_inv in Hr as (addr & s4 & Halloc & Hr).
  apply unsafe_stack_alloc_heap in Halloc.
  apply bind_inv in Hr as (w1 & t1 & Hs1 & Hr).
  apply store_inv_accessible in Hs1 as [A1 ->].
  apply bind_inv in Hr as (w2 & t2 & Hs2 & Hr).
  apply store_inv_accessible in Hs2 as [A2 ->].
  apply bind_inv in Hr as (w3 & t3 & Hs3 & Hr).
  apply store_inv_accessible in Hs3 as [A3 ->].
  apply bind_inv in Hr as (w4 & t4 & Hs4 & Hr).
  apply store_inv_accessible in Hs4 as [A4 ->].
  apply bind_inv in Hr as (w5 & t5 & Hs5 & Hr).
  apply store_inv_accessible in Hs5 as [A5 ->].
  unfold ret in Hr. injection Hr as <- <-.
  cbn [vm_log with_word] in A2, A3, A4, A5.
  eexists s4, _, _, _. cbn [spawn_arg heap vm_log with_word].
  split; [exact Halloc |]. split; [reflexivity |]. split; [reflexivity |].
  split; [reflexivity |].
  unfold record_fields. repeat constructor; assumption.
Qed.

End InterceptorFrame.

(** X5. When the interceptor returns, it hands the thread handle pointer
    and the attributes of its caller to the real [pthread_create]
    unchanged, with the trampoline as entry point; the thread-locals of
    the caller are as before and nothing was unmapped; the only words of
    memory it wrote are the five fields of the handoff record, all of them
    in readable and writable memory. *)
Theorem pthread_create_writes_only_the_record `{platform}
    (invoke : Z -> Z -> run Z) (tmpattr : pthread_attr_t) (kernel : option Z)
    (thread : Z) (attr : option pthread_attr_t) (f a : Z)
    (s : state) (req : spawn_request) (s1 : state) :
  pthread_create invoke tmpattr kernel thread attr f a s = Returns req s1 ->
  spawn_thread req = thread /\
  spawn_attr req = attr /\
  spawn_entry req = thread_start invoke /\
  tls s1 = tls s /\
  no_new_unmap (vm_log s) (vm_log s1) /\
  (forall k, ~ In k (record_fields (spawn_arg req)) ->
             heap s1 !! k = heap s !! k) /\
  (forall k, In k (record_fields (spawn_arg req)) ->
             word_accessible (vm_log s1) k = true).
Proof.
  intros Hr.
  pose proof (pthread_create_frame invoke _ _ _ _ _ _ _ _ _ Hr)
    as [Htls Hlog].
  apply pthread_create_inv in Hr
    as (s0 & v3 & v4 & v5 & Hh0 & Hl0 & Hreq & Hheap & Hacc).
  split; [rewrite Hreq; reflexivity |].
  split; [rewrite Hreq; reflexivity |].
  split; [rewrite Hreq; reflexivity |].
  split; [exact Htls |]. split; [exact Hlog |]. split.
  - intros k Hk. rewrite Hheap, <- Hh0.
    unfold record_fields in Hk. cbn [In] in Hk.
    repeat (rewrite lookup_insert_ne by (intros E; apply Hk; auto 10)).
    reflexivity.
  - intros k Hk. rewrite Hl0.
    rewrite Forall_forall in Hacc. apply Hacc, list_elem_of_In, Hk.
Qed.

Lemma pthread_create_writes_only_the_record_witness :
  tls (after_create sample_mapping 1048576 4096 111 222 empty_state)
  = fresh_thread_locals /\
  heap (after_create sample_mapping 1048576 4096 111 222 empty_state)
    !! sample_mapping = None /\
  word_accessible
    (vm_log (after_create sample_mapping 1048576 4096 111 222 empty_state))
    139637977780184 = true.
Proof.
  assert (Hrun : pthread_create (H := linux_x86_64) sample_invoke
                   glibc_default_attr (Some sample_mapping) 7
                   (Some one_mib_attr) 111 222 empty_state
                 = Returns
                     {| spawn_thread := 7;
                        spawn_attr := Some one_mib_attr;
                        spawn_entry := thread_start sample_invoke;
                        spawn_arg := 139637977780184 |}
                     (after_create sample_mapping 1048576 4096 111 222
                        empty_state)).
  { apply (pthread_create_eq (H := linux_x86_64) sample_invoke
             glibc_default_attr sample_mapping 7 (Some one_mib_attr)
             111 222 empty_state linux_x86_64_ok
             (in_word_by_eval 1048576 eq_refl)
             (in_word_by_eval 4096 eq_refl) eq_refl eq_refl).
    - unfold tinfo.sizeof. cbn. lia.
    - unfold sample_mapping. lia.
    - unfold sample_mapping. cbn. rewrite word_modulus_eq. lia. }
  destruct (pthread_create_writes_only_the_record (H := linux_x86_64)
              sample_invoke glibc_default_attr (Some sample_mapping) 7
              (Some one_mib_attr) 111 222 empty_state _ _ Hrun)
    as (_ & _ & _ & Htls & _ & Hheap & Hacc).
  split; [exact Htls |]. split.
  - rewrite Hheap; [reflexivity |].
    cbn [spawn_arg]. vm_compute. intuition discriminate.
  - apply Hacc. cbn [spawn_arg]. left. reflexivity.
Defined.

(** ** Where the sizes come from *)

(** X6. A creation with NULL attributes runs exactly as a creation with
    the default attributes of the platform passed explicitly, except that
    the real [pthread_create] still receives NULL; and when the caller
    passes attributes, the defaults of the platform play no part. *)
Theorem null_attr_means_defaults `{platform}
    (invoke : Z -> Z -> run Z) (tmpattr other : pthread_attr_t)
    (kernel : option Z) (thread f a : Z) (s : state) :
  pthread_create invoke tmpattr kernel thread None f a s =
  with_null_attr
    (pthread_create invoke other kernel thread (Some tmpattr) f a s) /\
  (forall given : pthread_attr_t,
     pthread_create invoke tmpattr kernel thread (Some given) f a s =
     pthread_create invoke other kernel thread (Some given) f a s).
Proof.
  split; [| reflexivity].
  unfold pthread_create, with_null_attr, bind.
  repeat match goal with
         | |- context [match ?x with
                       | Returns _ _ => _
                       | Die => _
                       | Segv => _
                       end] =>
             lazymatch x with
             | context [match _ with Returns _ _ => _ | Die => _ | Segv => _ end] =>
                 fail
             | _ => destruct x; try reflexivity
             end
         end.
Qed.

(** ** The main thread's stack after initialization *)

Section InitializerEdges.
Context `{platform}.

Lemma __safestack_init_pick rc rlim_cur :
  let size := if (rc =? 0) && negb (rlim_cur =? RLIM_INFINITY)
              then rlim_cur else kDefaultUnsafeStackSize in
  (rc = 0 /\ rlim_cur <> RLIM_INFINITY /\ size = rlim_cur) \/
  ((rc <> 0 \/ rlim_cur = RLIM_INFINITY) /\ size = kDefaultUnsafeStackSize).
Proof.
  cbv zeta.
  destruct (Z.eqb_spec rc 0) as [Hrc | Hrc];
    destruct (Z.eqb_spec rlim_cur RLIM_INFINITY) as [Hinf | Hinf];
    cbn [andb negb]; auto.
Qed.

Lemma __safestack_init_inv rc rlim_cur kernel s u s' :
  in_word rlim_cur ->
  __safestack_init rc rlim_cur kernel s = Returns u s' ->
  exists m size,
    kernel = Some m /\
    ((rc = 0 /\ rlim_cur <> RLIM_INFINITY /\ size = rlim_cur) \/
     ((rc <> 0 \/ rlim_cur = RLIM_INFINITY) /\
      size = kDefaultUnsafeStackSize)) /\
    in_word size /\
    wrap (m + 4096) + size < word_modulus /\
    (wrap (m + 4096) + size) mod 16 = 0 /\
    s' = with_tls
           (set_stack (wrap (m + 4096) + size) (wrap (m + 4096)) size 4096)
           (with_event (EvProtNone m 4096)
              (with_event (EvMmap m (size + 4096)) s)).
Proof.
  intros Hlim Hr.
  pose proof (__safestack_init_pick rc rlim_cur) as Hpick. cbv zeta in Hpick.
  set (size := if (rc =? 0) && negb (rlim_cur =? RLIM_INFINITY)
               then rlim_cur else kDefaultUnsafeStackSize) in *.
  assert (Hsz : in_word size).
  { destruct Hpick as [(_ & _ & ->) | (_ & ->)]; [exact Hlim |].
    apply in_word_by_eval. reflexivity. }
  assert (Hg : in_word 4096) by (apply in_word_by_eval; reflexivity).
  rewrite (__safestack_init_unfold rc rlim_cur kernel s size Hpick) in Hr.
  apply bind_inv in Hr as (addr & s1 & Halloc & Hset).
  apply unsafe_stack_alloc_inv in Halloc
    as (Hov & m & -> & -> & ->); try assumption.
  apply unsafe_stack_setup_inv in Hset as (Hs1 & _ & Hal & ->);
    try assumption; [| apply wrap_in_word].
  exists m, size. repeat split; try assumption; apply Hsz.
Qed.

End InitializerEdges.

(** X7. Once the initializer has returned on a mapping inside the address
    space, [__get_unsafe_stack_start] gives the byte behind the 4096 guard
    bytes, [__get_unsafe_stack_ptr] gives that address plus the usable
    size, a multiple of 16; every byte from the start up to the pointer is
    readable and writable, and a store to any word that begins in the
    guard below the start is a memory fault. *)
Theorem init_leaves_guarded_stack `{platform}
    (rc rlim_cur m : Z) (s s' : state) :
  in_word rlim_cur -> 0 <= m -> m + 4096 < word_modulus ->
  __safestack_init rc rlim_cur (Some m) s = Returns tt s' ->
  exists start p,
    __get_unsafe_stack_start s' = Returns start s' /\
    __get_unsafe_stack_ptr s' = Returns p s' /\
    start = m + 4096 /\
    p = start + unsafe_stack_size (tls s') /\
    p mod 16 = 0 /\
    (forall b, start <= b < p -> perm_at (vm_log s') b = ReadWrite) /\
    (forall b v, start - 4096 <= b < start -> store b v s' = Segv).
Proof.
  intros Hlim Hm Hm' Hr.
  apply __safestack_init_inv in Hr
    as (m0 & size & Hk & _ & Hsz & Htop & Hal & ->); [| exact Hlim].
  injection Hk as <-.
  rewrite (wrap_small (m + 4096)) in * by (unfold in_word; lia).
  exists (m + 4096), (m + 4096 + size).
  cbn [tls vm_log with_tls with_event set_stack unsafe_stack_size].
  split; [reflexivity |]. split; [reflexivity |].
  split; [reflexivity |]. split; [reflexivity |]. split; [exact Hal |].
  split.
  - intros b Hb. apply perm_at_usable; unfold in_word in *; lia.
  - intros b v Hb. unfold store.
    rewrite word_accessible_first; [reflexivity |].
    cbn [vm_log with_tls with_event]. rewrite perm_at_guard by lia.
    discriminate.
Qed.

Lemma init_leaves_guarded_stack_witness :
  exists s',
    __safestack_init (H := linux_x86_64) 0 8388608 (Some sample_mapping)
      empty_state = Returns tt s' /\
    __get_unsafe_stack_start s' = Returns (sample_mapping + 4096) s' /\
    __get_unsafe_stack_ptr s' = Returns (sample_mapping + 4096 + 8388608) s' /\
    perm_at (vm_log s') (sample_mapping + 4096) = ReadWrite /\
    store (sample_mapping + 4088) 0 s' = Segv.
Proof.
  destruct (__safestack_init (H := linux_x86_64) 0 8388608
              (Some sample_mapping) empty_state) as [[] s' | |] eqn:Hrun.
  - exists s'. split; [reflexivity |].
    destruct (init_leaves_guarded_stack (H := linux_x86_64) 0 8388608
                sample_mapping empty_state s'
                (in_word_by_eval 8388608 eq_refl))
      as (start & p & Hgs & Hgp & -> & -> & _ & Hrw & Hfault);
      [unfold sample_mapping; lia
      | unfold sample_mapping; rewrite word_modulus_eq; lia
      | exact Hrun |].
    assert (Hsize : unsafe_stack_size (tls s') = 8388608).
    { vm_compute in Hrun. injection Hrun as <-. reflexivity. }
    rewrite Hsize in *.
    split; [exact Hgs |]. split; [exact Hgp |]. split.
    + apply Hrw. unfold sample_mapping. lia.
    + apply Hfault. unfold sample_mapping. lia.
  - exfalso. vm_compute in Hrun. discriminate Hrun.
  - exfalso. vm_compute in Hrun. discriminate Hrun.
Defined.

(** X8. The initializer takes a finite stack limit as it is: a limit so
    large that adding the guard wraps around aborts the process, and so
    does a limit that is no multiple of 16 once the kernel has answered
    with a 16-aligned mapping; neither is replaced by the default size. *)
Theorem init_aborts_on_unusable_limit `{platform}
    (rlim_cur : Z) (s : state) :
  in_word rlim_cur -> rlim_cur <> RLIM_INFINITY ->
  (word_modulus <= rlim_cur + 4096 ->
   forall kernel, __safestack_init 0 rlim_cur kernel s = Die) /\
  (rlim_cur mod 16 <> 0 ->
   forall m, m mod 16 = 0 ->
             __safestack_init 0 rlim_cur (Some m) s = Die).
Proof.
  intros Hlim Hfin.
  assert (Hg : in_word 4096) by (apply in_word_by_eval; reflexivity).
  assert (Hun : forall kernel,
            __safestack_init 0 rlim_cur kernel s =
            (let* addr := unsafe_stack_alloc kernel rlim_cur 4096 in
             unsafe_stack_setup addr rlim_cur 4096) s).
  { intros kernel. apply __safestack_init_unfold. left. auto. }
  split.
  - intros Hov kernel. rewrite Hun.
    apply bind_die, unsafe_stack_alloc_overflow; assumption.
  - intros Hodd m Hm. rewrite Hun.
    destruct (Z.lt_ge_cases (rlim_cur + 4096) word_modulus) as [Hlt | Hge].
    2: { apply bind_die, unsafe_stack_alloc_overflow; assumption. }
    unfold unsafe_stack_alloc, CHECK_GE.
    unfold bind at 1 2. rewrite CHECK_true.
    2: { rewrite wrap_add_overflow by assumption. apply Z.ltb_lt. exact Hlt. }
    unfold bind, MmapOrDie, MprotectNoAccess, ret.
    apply unsafe_stack_setup_misaligned.
    rewrite Z.add_mod, wrap_mod_16 by lia.
    rewrite (Z.add_mod m 4096), Hm by lia.
    change ((0 + 4096 mod 16) mod 16) with 0. rewrite Z.add_0_l.
    rewrite Z.mod_mod by lia. exact Hodd.
Qed.

Lemma init_aborts_on_unusable_limit_witness :
  __safestack_init (H := linux_x86_64) 0 18446744073709551600
    (Some sample_mapping) empty_state = Die /\
  __safestack_init (H := linux_x86_64) 0 8388609
    (Some sample_mapping) empty_state = Die.
Proof.
  split.
  - destruct (init_aborts_on_unusable_limit (H := linux_x86_64)
                18446744073709551600 empty_state
                (in_word_by_eval 18446744073709551600 eq_refl))
      as (Hov & _).
    + vm_compute. discriminate.
    + apply Hov. vm_compute. discriminate.
  - destruct (init_aborts_on_unusable_limit (H := linux_x86_64)
                8388609 empty_state (in_word_by_eval 8388609 eq_refl))
      as (_ & Hodd).
    + vm_compute. discriminate.
    + apply Hodd; [vm_compute; discriminate | reflexivity].
Defined.

(** X9. Unlike the interceptor, the initializer has no check that the
    size is not 0: a stack limit of 0 is accepted, and the main thread
    starts with a stack pointer equal to the region start, no usable byte
    at all, so that a store to any word beginning in the mapping is a
    memory fault. *)
Theorem init_accepts_zero_limit `{platform} (m : Z) (s : state) :
  RLIM_INFINITY <> 0 ->
  0 <= m -> m mod 16 = 0 -> m + 8192 < word_modulus ->
  exists s',
    __safestack_init 0 0 (Some m) s = Returns tt s' /\
    unsafe_stack_size (tls s') = 0 /\
    unsafe_stack_start (tls s') = m + 4096 /\
    __safestack_unsafe_stack_ptr (tls s') = m + 4096 /\
    vm_log s' = EvProtNone m 4096 :: EvMmap m 4096 :: vm_log s /\
    (forall b v, m <= b < m + 4096 -> store b v s' = Segv).
Proof.
  intros Hinf Hm Hma Htop.
  assert (Hg : in_word 4096) by (apply in_word_by_eval; reflexivity).
  assert (H0 : in_word 0) by (apply in_word_by_eval; reflexivity).
  rewrite word_modulus_eq in Htop.
  eexists. split.
  - rewrite (__safestack_init_unfold 0 0 (Some m) s 0) by (left; auto).
    erewrite bind_returns.
    2: { apply unsafe_stack_alloc_eq; try assumption;
           unfold in_word; rewrite word_modulus_eq; lia. }
    apply unsafe_stack_setup_eq; try assumption;
      unfold in_word; rewrite ?word_modulus_eq; try lia.
    rewrite Z.add_0_r, Z.add_mod, Hma by lia. reflexivity.
  - cbn [tls vm_log with_tls with_event set_stack unsafe_stack_size
           unsafe_stack_start __safestack_unsafe_stack_ptr].
    split; [reflexivity |]. split; [reflexivity |].
    split; [apply Z.add_0_r |]. split; [reflexivity |].
    intros b v Hb. unfold store.
    rewrite word_accessible_first; [reflexivity |].
    cbn [vm_log with_tls with_event]. rewrite perm_at_guard by lia.
    discriminate.
Qed.

Lemma init_accepts_zero_limit_witness :
  exists s',
    __safestack_init (H := linux_x86_64) 0 0 (Some sample_mapping)
      empty_state = Returns tt s' /\
    unsafe_stack_size (tls s') = 0 /\
    __safestack_unsafe_stack_ptr (tls s') = sample_mapping + 4096 /\
    store (sample_mapping + 4088) 0 s' = Segv.
Proof.
  destruct (init_accepts_zero_limit (H := linux_x86_64) sample_mapping
              empty_state)
    as (s' & Hrun & Hsz & _ & Hp & _ & Hfault).
  - vm_compute. discriminate.
  - unfold sample_mapping. lia.
  - reflexivity.
  - unfold sample_mapping. rewrite word_modulus_eq. lia.
  - exists s'. split; [exact Hrun |]. split; [exact Hsz |].
    split; [exact Hp |]. apply Hfault. unfold sample_mapping. lia.
Defined.

(** ** The trampoline on an arbitrary record *)

Lemma load_inv a s v s' :
  load a s = Returns v s' ->
  word_accessible (vm_log s) a = true /\
  v = default 0 (heap s !! a) /\ s' = s.
Proof.
  unfold load. destruct (word_accessible (vm_log s) a); intros Hr;
    [| discriminate]. injection Hr as <- <-. repeat split.
Qed.

Lemma unsafe_stack_setup_state start size guard s u s' :
  unsafe_stack_setup start size guard s = Returns u s' ->
  s' = with_tls (set_stack (wrap (start + size)) start size guard) s.
Proof.
  intros Hr. unfold unsafe_stack_setup, CHECK_GE, CHECK_EQ in Hr.
  apply bind_inv in Hr as (u1 & s1 & Hc1 & Hr).
  apply CHECK_inv in Hc1 as [_ ->].
  apply bind_inv in Hr as (u2 & s2 & Hc2 & Hr).
  apply CHECK_inv in Hc2 as [_ ->].
  apply bind_inv in Hr as (u3 & s3 & Hc3 & Hr).
  apply CHECK_inv in Hc3 as [_ ->].
  unfold set_tls in Hr. injection Hr as _ <-. reflexivity.
Qed.

Lemma thread_start_inv invoke arg s r su :
  thread_start invoke arg s = Returns r su ->
  exists s1,
    Forall (fun k => word_accessible (vm_log s) k = true)
           (record_fields arg) /\
    unsafe_stack_setup
      (default 0 (heap s !! tinfo.field arg tinfo.unsafe_stack_start))
      (default 0 (heap s !! tinfo.field arg tinfo.unsafe_stack_size))
      (default 0 (heap s !! tinfo.field arg tinfo.unsafe_stack_guard)) s
    = Returns tt s1 /\
    invoke (default 0 (heap s !! tinfo.field arg tinfo.start_routine))
           (default 0 (heap s !! tinfo.field arg tinfo.start_routine_arg))
           (with_tls (set_thread_cleanup_value 1) s1)
    = Returns r su.
Proof.
  unfold thread_start. intros Hr.
  apply bind_inv in Hr as (v1 & s1 & L1 & Hr).
  apply load_inv in L1 as (A1 & -> & ->).
  apply bind_inv in Hr as (v2 & s2 & L2 & Hr).
  apply load_inv in L2 as (A2 & -> & ->).
  apply bind_inv in Hr as (v3 & s3 & L3 & Hr).
  apply load_inv in L3 as (A3 & -> & ->).
  apply bind_inv in Hr as (v4 & s4 & L4 & Hr).
  apply load_inv in L4 as (A4 & -> & ->).
  apply bind_inv in Hr as (v5 & s5 & L5 & Hr).
  apply load_inv in L5 as (A5 & -> & ->).
  apply bind_inv in Hr as ([] & s6 & Hset & Hr).
  apply bind_inv in Hr as (u & s7 & Hkey & Hr).
  unfold pthread_setspecific, set_tls in Hkey. injection Hkey as _ <-.
  exists s6. split; [| split; [exact Hset | exact Hr]].
  unfold record_fields. repeat constructor; assumption.
Qed.

(** X10. The trampoline gets as far as the code of the application
    exactly when the five fields of the record it is started on are
    readable and the installation of the region they describe passes its
    checks. It then calls the function in the first field on the second,
    with the region of the last three installed, the cleanup key at 1,
    and memory and mappings as it found them. *)
Theorem trampoline_entry_state `{platform}
    (arg : Z) (s : state) (f a : Z) (su : state) :
  let start :=
    default 0 (heap s !! tinfo.field arg tinfo.unsafe_stack_start) in
  let size :=
    default 0 (heap s !! tinfo.field arg tinfo.unsafe_stack_size) in
  let guard :=
    default 0 (heap s !! tinfo.field arg tinfo.unsafe_stack_guard) in
  calls_user_code arg s f a su <->
  (Forall (fun k => word_accessible (vm_log s) k = true) (record_fields arg) /\
   (exists s1, unsafe_stack_setup start size guard s = Returns tt s1) /\
   f = default 0 (heap s !! tinfo.field arg tinfo.start_routine) /\
   a = default 0 (heap s !! tinfo.field arg tinfo.start_routine_arg) /\
   su = {| tls := {| __safestack_unsafe_stack_ptr := wrap (start + size);
                     unsafe_stack_start := start;
                     unsafe_stack_size := size;
                     unsafe_stack_guard := guard;
                     thread_cleanup_value := 1 |};
           vm_log := vm_log s;
           heap := heap s |}).
Proof.
  intros start size guard. split.
  - intros Hcall.
    pose proof (Hcall (fun f0 _ s0 => Returns f0 s0)) as Hf.
    pose proof (Hcall (fun _ a0 s0 => Returns a0 s0)) as Ha.
    cbv beta in Hf, Ha.
    apply thread_start_inv in Hf as (s1 & Hacc & Hset & Hf).
    apply thread_start_inv in Ha as (s1' & _ & Hset' & Ha).
    fold start size guard in Hset, Hset'.
    injection Hf as <- <-. injection Ha as <- _.
    split; [exact Hacc |]. split; [exists s1; exact Hset |].
    split; [reflexivity |]. split; [reflexivity |].
    apply unsafe_stack_setup_state in Hset. rewrite Hset. reflexivity.
  - intros (Hacc & (s1 & Hset) & -> & -> & ->) invoke.
    unfold record_fields in Hacc.
    inversion Hacc as [| k1 l1 A1 Hacc1]; subst.
    inversion Hacc1 as [| k2 l2 A2 Hacc2]; subst.
    inversion Hacc2 as [| k3 l3 A3 Hacc3]; subst.
    inversion Hacc3 as [| k4 l4 A4 Hacc4]; subst.
    inversion Hacc4 as [| k5 l5 A5 _]; subst.
    unfold thread_start.
    erewrite bind_returns by (apply load_ok; exact A1).
    erewrite bind_returns by (apply load_ok; exact A2).
    erewrite bind_returns by (apply load_ok; exact A3).
    erewrite bind_returns by (apply load_ok; exact A4).
    erewrite bind_returns by (apply load_ok; exact A5).
    fold start size guard.
    erewrite bind_returns by exact Hset.
    erewrite bind_returns by reflexivity.
    apply unsafe_stack_setup_state in Hset. rewrite Hset. reflexivity.
Qed.

Lemma trampoline_entry_state_witness :
  calls_user_code (H := linux_x86_64) 139637977780184
    (spawned (after_create sample_mapping 1048576 4096 111 222 empty_state))
    111 222 armed_state.
Proof.
  apply (trampoline_entry_state (H := linux_x86_64) 139637977780184
           (spawned (after_create sample_mapping 1048576 4096 111 222
                       empty_state))
           111 222 armed_state).
  split; [| split; [| split; [| split]]].
  - unfold record_fields. repeat constructor.
  - exists (with_tls
              (set_stack 139637977780224 139637976731648 1048576 4096)
              (spawned (after_create sample_mapping 1048576 4096 111 222
                          empty_state))).
    reflexivity.
  - reflexivity.
  - reflexivity.
  - reflexivity.
Defined.

(** ** A thread created without a guard *)

(** X11. A guard size of 0 passes the checks of the interceptor. The
    region then has no inaccessible byte: its [size] bytes are readable
    and writable, the handoff record sits at their top end, and every
    address outside them, the word just below the stack included, has the
    protection it had before the creation. *)
Theorem zero_guard_gives_no_protection `{platform}
    (invoke : Z -> Z -> run Z) (tmpattr : pthread_attr_t) (m thread : Z)
    (attr : option pthread_attr_t) (f a size : Z) (s : state) :
  platform_ok ->
  effective_attr attr tmpattr = {| stacksize := size; guardsize := 0 |} ->
  in_word size -> size mod 16 = 0 -> tinfo.sizeof <= size ->
  0 <= m -> m + size < word_modulus ->
  pthread_create invoke tmpattr (Some m) thread attr f a s =
  Returns {| spawn_thread := thread;
             spawn_attr := attr;
             spawn_entry := thread_start invoke;
             spawn_arg := m + size - tinfo.sizeof |}
          (after_create m size 0 f a s) /\
  (forall b,
     perm_at (vm_log (after_create m size 0 f a s)) b =
     if in_range m size b then ReadWrite else perm_at (vm_log s) b).
Proof.
  intros Hok Heff Hsz Hal Hroom Hm Htop.
  split.
  - pose proof (pthread_create_eq invoke tmpattr m thread attr f a s Hok)
      as Hc.
    rewrite Heff in Hc. cbn [stacksize guardsize] in Hc.
    rewrite Z.add_0_r in Hc.
    assert (Hpage : 0 mod PAGE_SIZE = 0).
    { apply Z.mod_0_l. destruct Hok as (Hp & Hr & _). rewrite Hp.
      apply Z.pow_nonzero; lia. }
    apply Hc; try assumption; try lia.
    apply in_word_by_eval. reflexivity.
  - intros b. cbn [vm_log after_create perm_at]. unfold in_range.
    rewrite !Z.add_0_r.
    destruct (Z.leb_spec m b); cbn [andb]; [| reflexivity].
    destruct (Z.ltb_spec b m); [lia |].
    destruct (Z.ltb_spec b (m + size)); reflexivity.
Qed.

Lemma zero_guard_gives_no_protection_witness :
  pthread_create (H := linux_x86_64) sample_invoke glibc_default_attr
    (Some sample_mapping) 0
    (Some {| stacksize := 1048576; guardsize := 0 |}) 111 222 empty_state =
  Returns {| spawn_thread := 0;
             spawn_attr := Some {| stacksize := 1048576; guardsize := 0 |};
             spawn_entry := thread_start sample_invoke;
             spawn_arg := sample_mapping + 1048576 - tinfo.sizeof |}
          (after_create sample_mapping 1048576 0 111 222 empty_state) /\
  perm_at (vm_log (after_create sample_mapping 1048576 0 111 222 empty_state))
    (sample_mapping - 8) = Unmapped.
Proof.
  destruct (zero_guard_gives_no_protection (H := linux_x86_64)
              sample_invoke glibc_default_attr sample_mapping 0
              (Some {| stacksize := 1048576; guardsize := 0 |})
              111 222 1048576 empty_state linux_x86_64_ok eq_refl
              (in_word_by_eval 1048576 eq_refl) eq_refl)
    as (Hrun & Hperm).
  - unfold tinfo.sizeof. lia.
  - unfold sample_mapping. lia.
  - unfold sample_mapping. rewrite word_modulus_eq. lia.
  - split; [exact Hrun |]. rewrite Hperm. reflexivity.
Defined.
